(** * AdjustedAlgorithm: the adjusted-coordinate transformer of geomagio

    A shallow embedding of [geomagio/algorithm/AdjustedAlgorithm.py]: the
    state store ([load_state], [save_state]), the transform engine
    ([create_trace], [process]) and the availability checker
    ([can_produce_data]), followed by the properties of the specification
    that were checked against them.

    Conventions of the embedding:
    - numbers are IEEE-754 binary64 values ([np.float64]), taken from
      [SpecFloat] with [prec = 53] and [emax = 1024];
    - Python exceptions are values of [exn]; a call that may raise returns a
      [result];
    - [load_state] and [save_state] mutate the instance and touch the file
      system and [sys.stderr]; they live in the state-and-exception monad
      [M] over [heap];
    - a Python [dict] with string keys is a [gmap string _]. *)

From Stdlib Require Import ZArith Lia Bool Ascii String.
From Stdlib Require Import Floats.SpecFloat.
From stdpp Require Import gmap strings list pretty.

Local Open Scope string_scope.

(** ** binary64 arithmetic *)

Module F64.

Definition prec : Z := 53.
Definition emax : Z := 1024.

Definition float64 : Type := spec_float.

Definition add : float64 -> float64 -> float64 := SFadd prec emax.
Definition mul : float64 -> float64 -> float64 := SFmul prec emax.
Definition eqb : float64 -> float64 -> bool := SFeqb.

Definition zero : float64 := S754_zero false.
Definition one : float64 := Eval vm_compute in SFone prec emax.
Definition nan : float64 := S754_nan.

(** The binary64 value nearest to an integer. *)
Definition of_Z (z : Z) : float64 := binary_normalize prec emax z 0 false.

(** A value a float64 array cell can hold and that is neither a NaN nor
    an infinity. *)
Definition finite (x : float64) : bool :=
  match x with
  | S754_zero _ => true
  | S754_finite _ m e => bounded prec emax m e
  | _ => false
  end.

End F64.

Abbreviation float64 := F64.float64.

(** ** Exceptions *)

Inductive exn : Type :=
| IOError (msg : string)
| KeyError (key : string)
| ValueError
| IndexError
| TypeError
| AttributeError.

Inductive result (A : Type) : Type :=
| Ok (a : A)
| Raise (e : exn).
Arguments Ok {A} a.
Arguments Raise {A} e.

Definition rbind {A B} (r : result A) (k : A -> result B) : result B :=
  match r with
  | Ok a => k a
  | Raise e => Raise e
  end.

Declare Scope result_scope.
Delimit Scope result_scope with result.
Notation "'let?' x := r 'in' k" := (rbind r (fun x => k))
  (at level 10, x name, r at level 100, k at level 200) : result_scope.

(** [[f(x) for x in l]] where [f] may raise: the first exception wins. *)
Fixpoint rmap {A B} (f : A -> result B) (l : list A) : result (list B) :=
  match l with
  | [] => Ok []
  | x :: l' =>
      (let? y := f x in
       let? ys := rmap f l' in
       Ok (y :: ys))%result
  end.

(** [seq[i]] on a Python list. *)
Definition getitem {A} (l : list A) (i : nat) : result A :=
  match l !! i with
  | Some x => Ok x
  | None => Raise IndexError
  end.

(** ** A state-and-exception monad

    [ST S A] is a computation that reads and writes a store [S] and either
    returns an [A] or raises.  The store is returned in both cases: what a
    Python method has assigned before it raises stays assigned. *)

Definition ST (S A : Type) : Type := S -> result A * S.

Definition ret {S A} (a : A) : ST S A := fun s => (Ok a, s).

Definition bind {S A B} (c : ST S A) (k : A -> ST S B) : ST S B :=
  fun s =>
    match c s with
    | (Ok a, s') => k a s'
    | (Raise e, s') => (Raise e, s')
    end.

Definition raise {S A} (e : exn) : ST S A := fun s => (Raise e, s).

Definition lift {S A} (r : result A) : ST S A := fun s => (r, s).

Definition get {S} : ST S S := fun s => (Ok s, s).

Definition modify {S} (f : S -> S) : ST S unit := fun s => (Ok tt, f s).

Declare Scope st_scope.
Delimit Scope st_scope with st.
Notation "x <- c ;; k" := (bind c (fun x => k))
  (at level 100, c at next level, right associativity) : st_scope.
Notation "c ;; k" := (bind c (fun _ => k))
  (at level 100, right associativity) : st_scope.

(** [for x in l: body(x)] *)
Fixpoint for_ {S A} (l : list A) (body : A -> ST S unit) : ST S unit :=
  match l with
  | [] => ret tt
  | x :: l' => (body x ;; for_ l' body)%st
  end.

(** [range(n)] *)
Definition range (n : nat) : list nat := seq 0 n.

(** ** JSON documents and the file system

    A state file is a text file holding one JSON document.  The model keeps
    of a text only what [json.loads] makes of it: the empty text and any
    other text that is not JSON are rejected with a [ValueError]
    ([json.JSONDecodeError] is one), and the text written by
    [json.dumps v] reads back as [v]. *)

(** The values of a state record: numbers, and [null] for a correction
    that was [None] when saved. *)
Inductive jvalue : Type :=
| JVNull
| JVNum (x : float64).

Inductive json : Type :=
| JNull
| JBool (b : bool)
| JNum (x : float64)
| JStr (s : string)
| JArr (l : list jvalue)
| JObj (d : gmap string jvalue).

Inductive text : Type :=
| TEmpty
| TInvalid
| TJson (v : json).

Definition json_loads (t : text) : result json :=
  match t with
  | TEmpty | TInvalid => Raise ValueError
  | TJson v => Ok v
  end.

Definition json_dumps (d : gmap string jvalue) : text := TJson (JObj d).

(** A path holds a regular file, or something every [open] fails on with
    an [IOError] (no permission, a device error).  A path that is not in
    the map does not exist: it cannot be opened for reading, and opening it
    for writing creates it. *)
Inductive file : Type :=
| Denied (err : string)
| Regular (t : text).

Definition open_read (fs : gmap string file) (path : string) : result text :=
  match fs !! path with
  | None => Raise (IOError "No such file or directory")
  | Some (Denied err) => Raise (IOError err)
  | Some (Regular t) => Ok t
  end.

Definition open_write (fs : gmap string file) (path : string) (t : text)
  : result (gmap string file) :=
  match fs !! path with
  | Some (Denied err) => Raise (IOError err)
  | _ => Ok (<[path := Regular t]> fs)
  end.

(** [np.float64(v)] for a value read from a state record. *)
Definition np_float64 (v : jvalue) : float64 :=
  match v with
  | JVNum x => x
  | JVNull => F64.nan
  end.

(** ** Strings: [str], [max], [s[-1]], [int] *)

(** [str(n)] for a non-negative integer: its decimal digits. *)
Definition str (n : nat) : string := pretty n.

Definition str_gt (a b : string) : bool :=
  match String.compare a b with
  | Gt => true
  | _ => false
  end.

(** [max(l)]: the first greatest element; raises on an empty list. *)
Definition py_max (l : list string) : result string :=
  match l with
  | [] => Raise ValueError
  | x :: l' => Ok (fold_left (fun m k => if str_gt k m then k else m) l' x)
  end.

(** [s[-1]] *)
Fixpoint str_last (s : string) : result ascii :=
  match s with
  | EmptyString => Raise IndexError
  | String c EmptyString => Ok c
  | String _ s' => str_last s'
  end.

(** [int(c)] for a one-character string. *)
Definition int_of_char (c : ascii) : result nat :=
  let n := nat_of_ascii c in
  if ((48 <=? n)%nat && (n <=? 57)%nat) then Ok (n - 48) else Raise ValueError.

(** [d[key]] and [list(d.keys())] on a dict. *)
Definition dict_getitem {V} (d : gmap string V) (key : string) : result V :=
  match d !! key with
  | Some v => Ok v
  | None => Raise (KeyError key)
  end.

Definition dict_keys {V} (d : gmap string V) : list string :=
  (map_to_list d).*1.

(** ** numpy: two-dimensional float64 arrays *)

(** An array of shape [(length rows, ncols)].  [ncols] is kept apart from
    the rows so that an array without rows still has a shape. *)
Record ndarray : Type := mk_ndarray {
  ncols : nat;
  rows : list (list float64)
}.

(** Every row has [ncols] cells. *)
Definition wf_ndarray (a : ndarray) : Prop :=
  Forall (fun r => length r = ncols a) (rows a).

(** Cell [(i, j)] of an identity matrix. *)
Definition eye_cell (i j : nat) : float64 :=
  if (i =? j)%nat then F64.one else F64.zero.

Definition eye_row (n i : nat) : list float64 :=
  map (eye_cell i) (range n).

(** [np.eye(n)] *)
Definition np_eye (n : nat) : ndarray :=
  {| ncols := n; rows := map (eye_row n) (range n) |}.

(** [a[i, j]] *)
Definition ndarray_getitem (a : ndarray) (i j : nat) : result float64 :=
  match rows a !! i with
  | Some r => getitem r j
  | None => Raise IndexError
  end.

(** The array after [a[i, j] = x]. *)
Definition ndarray_set (a : ndarray) (i j : nat) (x : float64) : ndarray :=
  {| ncols := ncols a; rows := alter (fun r => <[j := x]> r) i (rows a) |}.

(** [a[i, j] = x], which raises out of range. *)
Definition ndarray_setitem (a : ndarray) (i j : nat) (x : float64)
  : result ndarray :=
  match ndarray_getitem a i j with
  | Ok _ => Ok (ndarray_set a i j x)
  | Raise e => Raise e
  end.

(** [len(a[0, :])] *)
Definition ndarray_len_row0 (a : ndarray) : result nat :=
  match rows a with
  | [] => Raise IndexError
  | _ :: _ => Ok (ncols a)
  end.

(** [np.ones_like(d)] for a one-dimensional [d]. *)
Definition np_ones_like (d : list float64) : list float64 :=
  map (fun _ => F64.one) d.

(** [np.vstack(l)] for one-dimensional arrays: they must have one length. *)
Definition np_vstack (l : list (list float64)) : result ndarray :=
  match l with
  | [] => Raise ValueError
  | r :: _ =>
      if forallb (fun r' => (length r' =? length r)%nat) l
      then Ok {| ncols := length r; rows := l |}
      else Raise ValueError
  end.

(** The sum of products of a row and a column, accumulated from the left
    starting at [+0.0].  numpy leaves the order of the additions and the
    use of fused multiply-add to its BLAS, so this is one of the orders
    it may take.  The properties below use the value of a product only
    for the identity matrix, where the orders agree, and otherwise only
    its shape. *)
Definition dot_step (acc : float64) (p : float64 * float64) : float64 :=
  F64.add acc (F64.mul (fst p) (snd p)).

Definition dot (r c : list float64) : float64 :=
  fold_left dot_step (combine r c) F64.zero.

Definition column (b : ndarray) (t : nat) : list float64 :=
  map (fun r => default F64.zero (r !! t)) (rows b).

(** [np.matmul(a, b)]: the inner dimensions must agree. *)
Definition np_matmul (a b : ndarray) : result ndarray :=
  if (ncols a =? length (rows b))%nat
  then Ok {| ncols := ncols b;
             rows := map (fun r => map (fun t => dot r (column b t))
                                       (range (ncols b)))
                         (rows a) |}
  else Raise ValueError.

(** [d + c] for a one-dimensional [d] and a scalar [c] that may be [None]:
    adding [None] to a float is a [TypeError], raised at the first cell. *)
Definition ndarray_add_scalar (d : list float64) (c : option float64)
  : result (list float64) :=
  match c with
  | Some c => Ok (map (fun x => F64.add x c) d)
  | None =>
      match d with
      | [] => Ok []
      | _ :: _ => Raise TypeError
      end
  end.

(** ** obspy: [Stats], [Trace], [Stream] *)

(** The metadata of a trace.  [stats_other] stands for the fields this
    program never touches (network, station, start time, sampling ...). *)
Record Stats : Type := mk_Stats {
  stats_channel : string;
  stats_data_type : option string;
  stats_location : option string;
  stats_other : list (string * string)
}.

Record Trace : Type := mk_Trace {
  stats : Stats;
  data : list float64
}.

Abbreviation Stream := (list Trace).

(** [stream.select(channel=c)]: the traces of channel [c], in order.
    Channel codes are plain upper-case codes; obspy's wildcard matching is
    not used by this program. *)
Definition select (c : string) (stream : Stream) : Stream :=
  List.filter (fun tr => String.eqb (stats_channel (stats tr)) c) stream.

(** [x in l] for a list of strings. *)
Definition contains (x : string) (l : list string) : bool :=
  existsb (String.eqb x) l.

(** ** The instance, and the world its methods run in *)

(** The fields of an [AdjustedAlgorithm].  [inchannels] and [outchannels]
    are kept by the base class [Algorithm].  [matrix] is an array on every
    instance a caller can hold: the constructor assigns either its argument
    or, through [load_state], an identity. *)
Record AdjustedAlgorithm : Type := mk_AdjustedAlgorithm {
  inchannels : list string;
  outchannels : list string;
  matrix : ndarray;
  pier_correction : option float64;
  statefile : option string;
  data_type : option string;
  location : option string
}.

Definition with_matrix (m : ndarray) (a : AdjustedAlgorithm) :=
  {| inchannels := inchannels a; outchannels := outchannels a;
     matrix := m; pier_correction := pier_correction a;
     statefile := statefile a; data_type := data_type a;
     location := location a |}.

Definition with_pier_correction (c : option float64) (a : AdjustedAlgorithm) :=
  {| inchannels := inchannels a; outchannels := outchannels a;
     matrix := matrix a; pier_correction := c;
     statefile := statefile a; data_type := data_type a;
     location := location a |}.

(** The instance together with the files and with what was written to
    [sys.stderr]. *)
Record heap : Type := mk_heap {
  self : AdjustedAlgorithm;
  fs : gmap string file;
  stderr : list string
}.

Definition M (A : Type) : Type := ST heap A.

Definition get_self : M AdjustedAlgorithm := fun h => (Ok (self h), h).

Definition set_matrix (m : ndarray) : M unit :=
  modify (fun h => {| self := with_matrix m (self h);
                      fs := fs h; stderr := stderr h |}).

Definition set_pier_correction (c : option float64) : M unit :=
  modify (fun h => {| self := with_pier_correction c (self h);
                      fs := fs h; stderr := stderr h |}).

(** [self.matrix[i, j] = x] *)
Definition matrix_setitem (i j : nat) (x : float64) : M unit :=
  (a <- get_self ;;
   m <- lift (ndarray_setitem (matrix a) i j x) ;;
   set_matrix m)%st.

(** [with open(path, "r") as f: f.read()] *)
Definition read_file (path : string) : M text :=
  fun h => (open_read (fs h) path, h).

(** [with open(path, "w") as f: f.write(t)] *)
Definition write_file (path : string) (t : text) : M unit :=
  fun h =>
    match open_write (fs h) path t with
    | Ok fs' => (Ok tt, {| self := self h; fs := fs'; stderr := stderr h |})
    | Raise e => (Raise e, h)
    end.

(** [sys.stderr.write(s)] *)
Definition stderr_write (s : string) : M unit :=
  modify (fun h => {| self := self h; fs := fs h;
                      stderr := stderr h ++ [s] |}).

(** [try: body  except IOError as err: handler(err)] *)
Definition try_except_IOError {S A} (body : ST S A)
    (handler : string -> ST S A) : ST S A :=
  fun s =>
    match body s with
    | (Raise (IOError err), s') => handler err s'
    | r => r
    end.

(** Runs a loop over a local variable of type [S]; the heap is untouched
    and an exception of the loop is raised to the caller. *)
Definition with_local {S A} (s : S) (c : ST S A) : M S :=
  fun h =>
    match c s with
    | (Ok _, s') => (Ok s', h)
    | (Raise e, _) => (Raise e, h)
    end.

(** ** The base class [Algorithm] *)

Module Algorithm.

(** Modelled from the spec: [Algorithm.get_input_channels]; the base
    class keeps the configured [inputs] of the channel mapping and hands
    them out unchanged. *)
Definition get_input_channels (a : AdjustedAlgorithm) : list string :=
  inchannels a.

(** Modelled from the spec: [Algorithm.get_output_channels]; the
    configured [outputs] of the channel mapping. *)
Definition get_output_channels (a : AdjustedAlgorithm) : list string :=
  outchannels a.

(** Modelled from the spec: [Algorithm.create_trace]; the generic
    channel-metadata cloning, which gives the cloned metadata the
    channel code of the output and pairs it with the samples. *)
Definition create_trace (channel : string) (st : Stats)
    (d : list float64) : Trace :=
  {| stats := {| stats_channel := channel;
                 stats_data_type := stats_data_type st;
                 stats_location := stats_location st;
                 stats_other := stats_other st |};
     data := d |}.

End Algorithm.

Abbreviation get_input_channels := Algorithm.get_input_channels.
Abbreviation get_output_channels := Algorithm.get_output_channels.

(** ** [AdjustedAlgorithm] *)

(** The key of matrix cell [(i, j)] in a state record:
    ["M" + str(i + 1) + str(j + 1)]. *)
Definition cell_key (i j : nat) : string :=
  "M" +:+ str (i + 1) +:+ str (j + 1).

(** [load_state]: lines 46-47 reset the calibration, the [try] block reads
    and parses the state file, and the loops fill a fresh identity from the
    record. *)
Definition load_state : M unit :=
  (a <- get_self ;;
   set_matrix (np_eye (length (get_input_channels a))) ;;
   set_pier_correction (Some F64.zero) ;;
   match statefile a with
   | None => ret tt
   | Some path =>
       data <- try_except_IOError
                 (t <- read_file path ;; lift (json_loads t))
                 (fun err => stderr_write ("I/O error " +:+ err) ;;
                             ret JNull) ;;
       match data with
       | JNull | JStr "" => ret tt
       | JObj d =>
           PC <- lift (dict_getitem d "PC") ;;
           let d := delete "PC" d in
           set_pier_correction (Some (np_float64 PC)) ;;
           let keys := dict_keys d in
           k <- lift (py_max keys) ;;
           c <- lift (str_last k) ;;
           length <- lift (int_of_char c) ;;
           set_matrix (np_eye length) ;;
           for_ (range length) (fun i =>
             for_ (range length) (fun j =>
               let key := cell_key i j in
               v <- lift (dict_getitem d key) ;;
               matrix_setitem i j (np_float64 v)))
       | JArr _ => raise TypeError
       | JBool _ | JNum _ | JStr _ => raise AttributeError
       end
   end)%st.

(** The JSON value of the correction in a saved record. *)
Definition json_of_correction (c : option float64) : jvalue :=
  match c with
  | Some x => JVNum x
  | None => JVNull
  end.

(** [save_state] *)
Definition save_state : M unit :=
  (a <- get_self ;;
   match statefile a with
   | None => ret tt
   | Some path =>
       let data : gmap string jvalue :=
         {[ "PC" := json_of_correction (pier_correction a) ]} in
       length <- lift (ndarray_len_row0 (matrix a)) ;;
       data <- with_local data
                 (for_ (range length) (fun i =>
                    for_ (range length) (fun j =>
                      let key := cell_key i j in
                      v <- lift (ndarray_getitem (matrix a) i j) ;;
                      modify (insert key (JVNum v))))) ;;
       write_file path (json_dumps data)
   end)%st.

(** [__init__]: the channel lists default when missing or empty, the
    arguments are stored, and [load_state] runs when no matrix was given.
    The new instance is [self] of the returned heap. *)
Definition init (matrix : option ndarray) (pier_correction : option float64)
    (statefile data_type location : option string)
    (inchannels outchannels : option (list string))
    (files : gmap string file) (err : list string) : result unit * heap :=
  let inchannels :=
    match inchannels with
    | None | Some [] => ["H"; "E"; "Z"; "F"]
    | Some l => l
    end in
  let outchannels :=
    match outchannels with
    | None | Some [] => ["X"; "Y"; "Z"; "F"]
    | Some l => l
    end in
  let new m :=
    {| self := {| inchannels := inchannels; outchannels := outchannels;
                  matrix := m; pier_correction := pier_correction;
                  statefile := statefile; data_type := data_type;
                  location := location |};
       fs := files; stderr := err |} in
  match matrix with
  | Some m => (Ok tt, new m)
  | None => load_state (new (np_eye 0))
  end.

(** [create_trace] *)
Definition create_trace (a : AdjustedAlgorithm) (channel : string)
    (st : Stats) (d : list float64) : Trace :=
  let st :=
    match data_type a with
    | None => {| stats_channel := stats_channel st;
                 stats_data_type := Some "adjusted";
                 stats_location := stats_location st;
                 stats_other := stats_other st |}
    | Some _ => {| stats_channel := stats_channel st;
                   stats_data_type := data_type a;
                   stats_location := stats_location st;
                   stats_other := stats_other st |}
    end in
  let st :=
    match data_type a with
    | None => {| stats_channel := stats_channel st;
                 stats_data_type := stats_data_type st;
                 stats_location := Some "A0";
                 stats_other := stats_other st |}
    | Some _ => {| stats_channel := stats_channel st;
                   stats_data_type := stats_data_type st;
                   stats_location := location a;
                   stats_other := stats_other st |}
    end in
  Algorithm.create_trace channel st d.

(** [process] *)
Definition process (a : AdjustedAlgorithm) (stream : Stream)
  : result Stream :=
  (let inchannels := get_input_channels a in
   let outchannels := get_output_channels a in
   let? inputs :=
     rmap (fun channel =>
             let? tr := getitem (select channel stream) 0 in Ok (data tr))
          (List.filter (fun channel => negb (String.eqb channel "F"))
                       inchannels) in
   let? first := getitem stream 0 in
   let? raws := np_vstack (inputs ++ [np_ones_like (data first)]) in
   let? adjusted := np_matmul (matrix a) raws in
   let? out :=
     rmap (fun i =>
             let? outchannel := getitem outchannels i in
             let? inchannel := getitem inchannels i in
             let? tr := getitem (select inchannel stream) 0 in
             let? row := getitem (rows adjusted) i in
             Ok (create_trace a outchannel (stats tr) row))
          (range (length (rows adjusted) - 1)) in
   if contains "F" inchannels && contains "F" outchannels then
     let? f := getitem (select "F" stream) 0 in
     let? d := ndarray_add_scalar (data f) (pier_correction a) in
     Ok (out ++ [create_trace a "F" (stats f) d])%list
   else Ok out)%result.

(** The availability checker.  The per-channel sufficiency check is the
    base class's [can_produce_data], an external collaborator: it is a
    parameter here.  Beside its answer, [can_produce_data] returns the
    channels whose selection it handed to the base check, in call order,
    which makes the order of evaluation of the tiers observable. *)
Section Availability.

Definition UTCDateTime : Type := Z.

Variable Algorithm_can_produce_data :
  UTCDateTime -> UTCDateTime -> Stream -> bool.

Definition can_produce_data (a : AdjustedAlgorithm)
    (starttime endtime : UTCDateTime) (stream : Stream)
  : bool * list string :=
  let channels := get_input_channels a in
  let super chan :=
    Algorithm_can_produce_data starttime endtime (select chan stream) in
  let f := if contains "F" channels then (super "F", ["F"])
           else (false, []) in
  if fst f then (true, snd f)
  else
    let hez :=
      if contains "H" channels && contains "E" channels
         && contains "Z" channels
      then (forallb id (map super ["H"; "E"; "Z"]), ["H"; "E"; "Z"])
      else (false, []) in
    if fst hez then (true, (snd f ++ snd hez)%list)
    else
      let all := (forallb id (map super channels), channels) in
      if fst all then (true, (snd f ++ snd hez ++ snd all)%list)
      else (false, (snd f ++ snd hez ++ snd all)%list).

End Availability.

(** ** Vocabulary of the specification *)

(** Only -0.0 changes when a zero is added to it. *)
Definition not_neg_zero (x : float64) : Prop := x <> S754_zero true.

(** The three availability tiers, in the words of the specification; the
    parameter [covered] is the per-channel coverage check for the
    requested time range. *)
Definition tier1 (covered : string -> bool) (inputs : list string) : bool :=
  contains "F" inputs && covered "F".

Definition tier2 (covered : string -> bool) (inputs : list string) : bool :=
  contains "H" inputs && contains "E" inputs && contains "Z" inputs
  && (covered "H" && covered "E" && covered "Z").

Definition tier3 (covered : string -> bool) (inputs : list string) : bool :=
  forallb covered inputs.

(** The state [load_state] starts from: the identity sized to the input
    channels and correction 0. *)
Definition default_state (a : AdjustedAlgorithm) : AdjustedAlgorithm :=
  with_pier_correction (Some F64.zero)
    (with_matrix (np_eye (length (get_input_channels a))) a).

(** The first trace of a channel in a batch. *)
Definition first_trace (c : string) (stream : Stream) : option Trace :=
  head (select c stream).

(** Numerical equality of two sample arrays. *)
Definition samples_eq (d1 d2 : list float64) : Prop :=
  Forall2 (fun x y => F64.eqb x y = true) d1 d2.

(** One-sample traces for the examples. *)
Definition sample_trace (channel : string) (x : Z) : Trace :=
  {| stats := {| stats_channel := channel; stats_data_type := None;
                 stats_location := Some "R0"; stats_other := [] |};
     data := [F64.of_Z x] |}.

(** The index pairs visited by [for i in range(n): for j in range(n)],
    in the order of the visit. *)
Definition cells (n : nat) : list (nat * nat) :=
  flat_map (fun i => map (pair i) (range n)) (range n).

(** The body of the loops of [load_state] at one cell. *)
Definition load_cell (d : gmap string jvalue) (p : nat * nat) : M unit :=
  (v <- lift (dict_getitem d (cell_key (fst p) (snd p))) ;;
   matrix_setitem (fst p) (snd p) (np_float64 v))%st.

(** The body of the loops of [save_state] at one cell. *)
Definition save_cell (m : ndarray) (p : nat * nat)
  : ST (gmap string jvalue) unit :=
  (v <- lift (ndarray_getitem m (fst p) (snd p)) ;;
   modify (insert (cell_key (fst p) (snd p)) (JVNum v)))%st.

(** Cell [(i, j)] of an array, when it has one. *)
Definition cell (a : ndarray) (i j : nat) : option float64 :=
  match rows a !! i with
  | Some r => r !! j
  | None => None
  end.

Definition row_lengths (a : ndarray) : list nat := map length (rows a).

(** A square array of dimension [n]. *)
Definition square (n : nat) (a : ndarray) : Prop :=
  ncols a = n /\ row_lengths a = replicate n n.

(** The array after the cells [ps] were overwritten from the record [d],
    for a record that has them all. *)
Definition fill (d : gmap string jvalue) (ps : list (nat * nat))
    (a : ndarray) : ndarray :=
  fold_left (fun a p =>
               match d !! cell_key (fst p) (snd p) with
               | Some v => ndarray_set a (fst p) (snd p) (np_float64 v)
               | None => a
               end) ps a.

(** The record after the cells [ps] of [m] were stored in [d]. *)
Definition record_of (m : ndarray) (ps : list (nat * nat))
    (d : gmap string jvalue) : gmap string jvalue :=
  fold_left (fun d p =>
               <[cell_key (fst p) (snd p) :=
                   JVNum (default F64.zero (cell m (fst p) (snd p)))]> d)
            ps d.

(** The record [save_state] writes for a matrix [m] of dimension [n] and a
    correction [pc]. *)
Definition saved_record (m : ndarray) (n : nat) (pc : option float64)
  : gmap string jvalue :=
  record_of m (cells n) {[ "PC" := json_of_correction pc ]}.

(** The heap with another matrix in the instance. *)
Definition heap_with_matrix (m : ndarray) (h : heap) : heap :=
  {| self := with_matrix m (self h); fs := fs h; stderr := stderr h |}.

(** The dimension [load_state] infers from the keys of a record (after
    "PC" was removed). *)
Definition inferred_dimension (d : gmap string jvalue) : result nat :=
  (let? k := py_max (dict_keys (delete "PC" d)) in
   let? c := str_last k in
   int_of_char c)%result.

(** [configure].  The parsed command line is a [Namespace] of which this
    class reads [adjusted_statefile]; the base class's [configure], which
    takes the channel lists from the arguments, is a parameter. *)
Section Configure.

Variable Namespace : Type.
Variable adjusted_statefile : Namespace -> option string.
Variable Algorithm_configure :
  Namespace -> AdjustedAlgorithm -> AdjustedAlgorithm.

Definition with_statefile (p : option string) (a : AdjustedAlgorithm) :=
  {| inchannels := inchannels a; outchannels := outchannels a;
     matrix := matrix a; pier_correction := pier_correction a;
     statefile := p; data_type := data_type a;
     location := location a |}.

Definition configure (arguments : Namespace) : M unit :=
  (modify (fun h => {| self := Algorithm_configure arguments (self h);
                       fs := fs h; stderr := stderr h |}) ;;
   modify (fun h => {| self := with_statefile
                                 (adjusted_statefile arguments) (self h);
                       fs := fs h; stderr := stderr h |}) ;;
   load_state)%st.

End Configure.

(** The input channels that go through the matrix. *)
Definition non_F (channels : list string) : list string :=
  List.filter (fun channel => negb (String.eqb channel "F")) channels.

(** The tags [create_trace] gives every output. *)
Definition adjusted_tags (a : AdjustedAlgorithm) (st : Stats) : Prop :=
  stats_data_type st = Some (default "adjusted" (data_type a))
  /\ stats_location st = match data_type a with
                         | None => Some "A0"
                         | Some _ => location a
                         end.

(** Two instances with the same configuration: everything but the
    calibration. *)
Definition same_config (a b : AdjustedAlgorithm) : Prop :=
  inchannels a = inchannels b /\ outchannels a = outchannels b
  /\ statefile a = statefile b /\ data_type a = data_type b
  /\ location a = location b.

(** A sufficiency check for the examples: a selection is sufficient when
    it holds a trace. *)
Definition has_traces (starttime endtime : UTCDateTime) (stream : Stream)
  : bool :=
  match stream with
  | [] => false
  | _ :: _ => true
  end.

(** Two heaps that differ at most in the calibration of the instance. *)
Definition framed (h0 h : heap) : Prop :=
  fs h = fs h0 /\ stderr h = stderr h0 /\ same_config (self h) (self h0).

(** Two heaps with the same instance and the same files. *)
Definition same_store (h h' : heap) : Prop :=
  self h = self h' /\ fs h = fs h'.

(** The digits of a string, in order; other characters are skipped. *)
Fixpoint digits_of (s : string) : list nat :=
  match s with
  | EmptyString => []
  | String c s' =>
      match int_of_char c with
      | Ok n => n :: digits_of s'
      | Raise _ => digits_of s'
      end
  end.

(** The row and column digits of a cell key "M.."; no digit for any
    other key. *)
Definition key_digits (k : string) : list nat :=
  match k with
  | String "M" rest => digits_of rest
  | _ => []
  end.

(** The dimension of a record in the words of the specification
    (section 3), to be compared with [inferred_dimension], which is what
    line 65 computes: the maximum row or column digit appearing across
    all "M.." keys, after "PC" was removed. *)
Definition spec_dimension (d : gmap string jvalue) : nat :=
  max_list (flat_map key_digits (dict_keys (delete "PC" d))).

(** A partial record: the cells of the first row and of the first column
    of a 2 by 2 matrix, without "M22". *)
Definition partial_record : gmap string jvalue :=
  <[ "PC" := JVNum F64.zero ]>
    (<[ "M11" := JVNum (F64.of_Z 1) ]>
       (<[ "M12" := JVNum (F64.of_Z 2) ]>
          {[ "M21" := JVNum (F64.of_Z 3) ]})).

(** * Properties *)

(** ** binary64 facts used below *)

Section F64_facts.

Lemma digits2_pos_shift52 (m : positive) :
  Z.pos (digits2_pos (Pos.iter xO m 52)) = (Z.pos (digits2_pos m) + 52)%Z.
Proof. cbn [Pos.iter digits2_pos]. lia. Qed.

(** Multiplying by 1.0 is exact. *)
Lemma mul_one_finite (s : bool) (m : positive) (e : Z) :
  bounded F64.prec F64.emax m e = true ->
  F64.mul F64.one (S754_finite s m e) = S754_finite s m e.
Proof.
  intros Hb. unfold bounded, canonical_mantissa in Hb.
  apply andb_true_iff in Hb as [Hc He].
  apply Z.eqb_eq in Hc.
  unfold F64.mul, SFmul, F64.one. cbn [xorb].
  unfold binary_round_aux.
  replace (4503599627370496 * m)%positive with (Pos.iter xO m 52)
    by reflexivity.
  unfold shr_fexp at 1.
  unfold Zdigits2. rewrite digits2_pos_shift52.
  replace (Z.pos (digits2_pos m) + 52 + (-52 + e))%Z
    with (Z.pos (digits2_pos m) + e)%Z by lia.
  rewrite Hc.
  replace (e - (-52 + e))%Z with 52%Z by lia.
  cbn [shr shr_record_of_loc SpecFloat.iter_pos shr_1 Pos.iter orb].
  cbn [shr_m loc_of_shr_record round_nearest_even].
  replace (-52 + e + 52)%Z with e by lia.
  unfold shr_fexp, Zdigits2. rewrite Hc, Z.sub_diag.
  cbn [shr shr_record_of_loc shr_m].
  rewrite He. reflexivity.
Qed.

Lemma mul_one_l (x : float64) :
  F64.finite x = true -> F64.mul F64.one x = x.
Proof.
  destruct x as [s| | |s m e]; cbn; try discriminate.
  - reflexivity.
  - apply mul_one_finite.
Qed.

(** Multiplying a finite value by +0.0 gives a zero. *)
Lemma mul_zero_l (x : float64) :
  F64.finite x = true -> exists s, F64.mul F64.zero x = S754_zero s.
Proof. destruct x; cbn; try discriminate; eauto. Qed.

Lemma add_zero_r (x : float64) (s : bool) :
  not_neg_zero x -> F64.add x (S754_zero s) = x.
Proof.
  unfold not_neg_zero.
  destruct x as [[]| | |]; destruct s; cbn; intros H; congruence.
Qed.

Lemma add_pos_zero_l_not_neg_zero (x : float64) :
  not_neg_zero (F64.add F64.zero x).
Proof.
  unfold not_neg_zero.
  destruct x as [[]| | |]; cbv [F64.add SFadd F64.zero]; congruence.
Qed.

Lemma add_pos_zero_zero (s : bool) :
  F64.add F64.zero (S754_zero s) = F64.zero.
Proof. destruct s; reflexivity. Qed.

Lemma compare_cont_refl (p : positive) : Pos.compare_cont Eq p p = Eq.
Proof. apply Pos.compare_refl. Qed.

Lemma eqb_refl_finite (x : float64) :
  F64.finite x = true -> F64.eqb x x = true.
Proof.
  destruct x as [s| | |[] m e]; cbn; try discriminate; try reflexivity;
    intros _; unfold F64.eqb, SFeqb; cbn; rewrite Z.compare_refl,
    compare_cont_refl; reflexivity.
Qed.

(** [+0.0 + x] is numerically equal to [x], and so is [x + +0.0]. *)
Lemma add_zero_l_eqb (x : float64) :
  F64.finite x = true -> F64.eqb (F64.add F64.zero x) x = true.
Proof.
  intros Hx. destruct x as [[]| | |s m e]; try discriminate;
    try reflexivity.
  change (F64.add F64.zero (S754_finite s m e)) with (S754_finite s m e).
  apply eqb_refl_finite, Hx.
Qed.

Lemma add_zero_r_eqb (x : float64) :
  F64.finite x = true -> F64.eqb (F64.add x F64.zero) x = true.
Proof.
  intros Hx. destruct x as [[]| | |s m e]; try discriminate;
    try reflexivity.
  change (F64.add (S754_finite s m e) F64.zero) with (S754_finite s m e).
  apply eqb_refl_finite, Hx.
Qed.

End F64_facts.

(** ** The identity matrix in a product *)

Section Identity_product.

(** Past the diagonal, the accumulator only meets zeros. *)
Lemma dot_after_diagonal (i : nat) (c : list float64) :
  Forall (fun x => F64.finite x = true) c ->
  forall (k : nat) (acc : float64),
    i < k -> not_neg_zero acc ->
    fold_left dot_step (combine (map (eye_cell i) (seq k (length c))) c) acc = acc.
Proof.
  induction 1 as [|x c Hx Hc IH]; intros k acc Hk Hacc; [reflexivity|].
  cbn [length seq map combine fold_left].
  unfold dot_step at 2, eye_cell at 2. cbn [fst snd].
  destruct (Nat.eqb_spec i k) as [->|_]; [lia|].
  destruct (mul_zero_l x Hx) as [s ->].
  rewrite add_zero_r by assumption.
  apply IH; [lia|assumption].
Qed.

Lemma dot_before_diagonal (i : nat) (c : list float64) :
  Forall (fun x => F64.finite x = true) c ->
  forall (k : nat) (x : float64),
    k <= i -> c !! (i - k) = Some x ->
    fold_left dot_step (combine (map (eye_cell i) (seq k (length c))) c) F64.zero
    = F64.add F64.zero x.
Proof.
  induction 1 as [|y c Hy Hc IH]; intros k x Hk Hx; [discriminate|].
  cbn [length seq map combine fold_left].
  unfold dot_step at 2, eye_cell at 2. cbn [fst snd].
  destruct (Nat.eqb_spec i k) as [->|Hne].
  - rewrite Nat.sub_diag in Hx. injection Hx as ->.
    rewrite mul_one_l by assumption.
    apply dot_after_diagonal;
      [assumption|lia|apply add_pos_zero_l_not_neg_zero].
  - destruct (mul_zero_l y Hy) as [s ->].
    rewrite add_pos_zero_zero.
    apply IH; [lia|].
    replace (i - k) with (S (i - S k)) in Hx by lia. exact Hx.
Qed.

(** Row [i] of the identity picks cell [i] of a column of finite
    values, up to the sign of a zero. *)
Lemma dot_eye_row (i : nat) (c : list float64) (x : float64) :
  Forall (fun x => F64.finite x = true) c ->
  c !! i = Some x ->
  dot (eye_row (length c) i) c = F64.add F64.zero x.
Proof.
  intros Hc Hx. unfold dot, eye_row, range.
  apply (dot_before_diagonal i c Hc 0 x); [lia|].
  rewrite Nat.sub_0_r. exact Hx.
Qed.

(** The rows of [np.matmul(np.eye(n), b)] for a [b] of [n] rows of
    finite values. *)
Lemma matmul_eye_rows (b : ndarray) :
  wf_ndarray b ->
  Forall (Forall (fun x => F64.finite x = true)) (rows b) ->
  np_matmul (np_eye (length (rows b))) b
  = Ok {| ncols := ncols b;
          rows := map (map (F64.add F64.zero)) (rows b) |}.
Proof.
  intros Hwf Hfin. unfold np_matmul. cbn [ncols np_eye rows].
  rewrite Nat.eqb_refl. do 2 f_equal.
  apply list_eq. intros i.
  rewrite !list_lookup_fmap. unfold range.
  destruct (rows b !! i) as [r|] eqn:Hr.
  - assert (Hi : i < length (rows b)) by (eapply lookup_lt_Some; eauto).
    rewrite lookup_seq_lt by assumption. cbn [fmap option_fmap option_map].
    f_equal.
    assert (Hlen : length r = ncols b).
    { exact (Forall_lookup_1 _ _ _ _ Hwf Hr). }
    apply list_eq. intros t. rewrite !list_lookup_fmap.
    destruct (r !! t) as [x|] eqn:Hx.
    + assert (Ht : t < ncols b).
      { rewrite <- Hlen. eapply lookup_lt_Some; eauto. }
      rewrite lookup_seq_lt by assumption.
      cbn [fmap option_fmap option_map]. f_equal.
      replace (length (rows b)) with (length (column b t))
        by (unfold column; apply length_map).
      apply dot_eye_row.
      * unfold column. apply Forall_map.
        eapply Forall_impl; [exact Hfin|]. intros r' Hr'. cbn.
        destruct (r' !! t) as [y|] eqn:Hy; cbn; [|reflexivity].
        exact (Forall_lookup_1 _ _ _ _ Hr' Hy).
      * unfold column. cbn [Nat.add].
        change (map ?f ?l) with (f <$> l).
        rewrite list_lookup_fmap, Hr. cbn. rewrite Hx. reflexivity.
    + rewrite lookup_seq_ge; [reflexivity|].
      rewrite <- Hlen. apply lookup_ge_None. exact Hx.
  - rewrite lookup_seq_ge; [reflexivity|].
    apply lookup_ge_None. exact Hr.
Qed.

End Identity_product.

(** ** The availability checker *)

Section Availability_facts.

Variable base : UTCDateTime -> UTCDateTime -> Stream -> bool.

(** C3: the availability check answers true exactly when one of the
    three tiers is satisfied (tier 1: "F" is an input and F is covered;
    tier 2: "H", "E", "Z" are inputs and each is covered; tier 3: every
    input is covered) and false otherwise; the tiers are consulted in
    this order, a later tier only when the earlier ones failed. *)
Theorem can_produce_data_tiers (a : AdjustedAlgorithm)
    (starttime endtime : UTCDateTime) (stream : Stream) :
  let inputs := get_input_channels a in
  let covered chan := base starttime endtime (select chan stream) in
  let r := can_produce_data base a starttime endtime stream in
  (fst r = true <->
     tier1 covered inputs = true \/ tier2 covered inputs = true
     \/ tier3 covered inputs = true)
  /\ fst r = tier1 covered inputs
             || tier2 covered inputs || tier3 covered inputs
  /\ snd r =
       ((if contains "F" inputs then ["F"] else [])
        ++ (if tier1 covered inputs then []
            else (if contains "H" inputs && contains "E" inputs
                     && contains "Z" inputs
                  then ["H"; "E"; "Z"] else [])
                 ++ (if tier2 covered inputs then [] else inputs)))%list.
Proof.
  intros inputs covered r.
  assert (Hr : fst r = tier1 covered inputs
               || tier2 covered inputs || tier3 covered inputs
          /\ snd r =
       ((if contains "F" inputs then ["F"] else [])
        ++ (if tier1 covered inputs then []
            else (if contains "H" inputs && contains "E" inputs
                     && contains "Z" inputs
                  then ["H"; "E"; "Z"] else [])
                 ++ (if tier2 covered inputs then [] else inputs)))%list).
  { assert (Hall : forallb id (map covered inputs)
                   = forallb covered inputs).
    { clear. induction inputs as [|c l IH]; cbn; [reflexivity|].
      rewrite IH. reflexivity. }
    subst r. unfold can_produce_data, tier1, tier2, tier3.
    change (get_input_channels a) with inputs.
    change (fun chan => base starttime endtime (select chan stream))
      with covered.
    rewrite Hall. cbn [map forallb id].
    generalize (forallb covered inputs). subst covered. cbn beta.
    generalize (base starttime endtime (select "F" stream))
      (base starttime endtime (select "H" stream))
      (base starttime endtime (select "E" stream))
      (base starttime endtime (select "Z" stream))
      (contains "F" inputs) (contains "H" inputs)
      (contains "E" inputs) (contains "Z" inputs).
    intros [] [] [] [] [] [] [] [] []; cbn;
      rewrite ?app_nil_r; split; reflexivity. }
  destruct Hr as [Hfst Hsnd]. split; [|split; assumption].
  rewrite Hfst.
  destruct (tier1 covered inputs), (tier2 covered inputs),
    (tier3 covered inputs); cbn; intuition discriminate.
Qed.

End Availability_facts.

(** ** Loading: unreadable and empty state files *)

Ltac run_load :=
  unfold load_state;
  repeat (progress unfold bind, get_self, set_matrix, set_pier_correction,
            try_except_IOError, read_file, stderr_write, modify, lift,
            ret, raise);
  cbn [self fs stderr].

(** C5: when the state file cannot be read (it does not exist, or opening
    it fails with an I/O error), [load_state] writes the error to
    [sys.stderr], raises nothing, and leaves the identity matrix sized to
    the input channels and correction 0. *)
Theorem load_state_unreadable (h : heap) (path err : string) :
  statefile (self h) = Some path ->
  (fs h !! path = None /\ err = "No such file or directory"
   \/ fs h !! path = Some (Denied err)) ->
  load_state h
  = (Ok tt, {| self := default_state (self h); fs := fs h;
               stderr := (stderr h ++ ["I/O error " +:+ err])%list |}).
Proof.
  intros Hpath Hfile. run_load. rewrite Hpath.
  unfold open_read. cbn [fs].
  destruct Hfile as [[-> ->]| ->]; reflexivity.
Qed.

Lemma load_state_unreadable_witness :
  load_state {| self := {| inchannels := ["H"; "E"; "Z"; "F"];
                           outchannels := ["X"; "Y"; "Z"; "F"];
                           matrix := np_eye 2;
                           pier_correction := Some (F64.of_Z 7);
                           statefile := Some "missing.json";
                           data_type := None; location := None |};
                fs := ∅; stderr := [] |}
  = (Ok tt,
     {| self := {| inchannels := ["H"; "E"; "Z"; "F"];
                   outchannels := ["X"; "Y"; "Z"; "F"];
                   matrix := np_eye 4;
                   pier_correction := Some F64.zero;
                   statefile := Some "missing.json";
                   data_type := None; location := None |};
        fs := ∅;
        stderr := ["I/O error No such file or directory"] |}).
Proof.
  refine (eq_trans (load_state_unreadable _ "missing.json"
                      "No such file or directory" _ _) _).
  - reflexivity.
  - left. split; reflexivity.
  - reflexivity.
Defined.

(** C4 (what the code does): on a state file that exists, is readable and
    is empty, [json.loads] rejects the empty text; the [ValueError] is not
    an [IOError], so it is not caught and [load_state] raises it, after
    the reset of lines 46-47. *)
Theorem load_state_empty_file_raises (h : heap) (path : string) :
  statefile (self h) = Some path ->
  fs h !! path = Some (Regular TEmpty) ->
  load_state h
  = (Raise ValueError, {| self := default_state (self h); fs := fs h;
                          stderr := stderr h |}).
Proof.
  intros Hpath Hfile. run_load. rewrite Hpath.
  unfold open_read. cbn [fs]. rewrite Hfile. reflexivity.
Qed.

Lemma load_state_empty_file_raises_witness :
  fst (load_state
         {| self := {| inchannels := ["H"; "E"; "Z"; "F"];
                       outchannels := ["X"; "Y"; "Z"; "F"];
                       matrix := np_eye 4;
                       pier_correction := Some F64.zero;
                       statefile := Some "state.json";
                       data_type := None; location := None |};
            fs := {[ "state.json" := Regular TEmpty ]}; stderr := [] |})
  = Raise ValueError.
Proof.
  rewrite (load_state_empty_file_raises _ "state.json");
    [reflexivity|reflexivity|].
  cbn [fs]. apply lookup_singleton_eq.
Defined.

(** ** Output metadata *)

(** C8 (what the code does): the data-type tag of an output is
    "adjusted" or the configured data type, but the location tag is
    chosen by looking at the configured data type, not at the configured
    location: without a data type it is "A0" whatever location was
    configured, and with one it is the configured location even when that
    is [None]. *)
Theorem create_trace_location_follows_data_type
    (a : AdjustedAlgorithm) (channel : string) (st : Stats)
    (d : list float64) :
  let out := stats (create_trace a channel st d) in
  stats_channel out = channel
  /\ stats_other out = stats_other st
  /\ stats_data_type out = Some (default "adjusted" (data_type a))
  /\ stats_location out
     = match data_type a with
       | None => Some "A0"
       | Some _ => location a
       end.
Proof. unfold create_trace. destruct (data_type a); cbn; auto. Qed.

(** A configured location "R0" without a configured data type is
    ignored. *)
Example create_trace_ignores_location :
  stats_location
    (stats (create_trace
              {| inchannels := ["H"; "E"; "Z"; "F"];
                 outchannels := ["X"; "Y"; "Z"; "F"];
                 matrix := np_eye 4; pier_correction := Some F64.zero;
                 statefile := None;
                 data_type := None; location := Some "R0" |}
              "X"
              {| stats_channel := "H"; stats_data_type := None;
                 stats_location := Some "R0"; stats_other := [] |}
              []))
  = Some "A0".
Proof. reflexivity. Qed.

(** ** Construction without a pier correction *)

(** C9 (what the code does): a transformer constructed with a matrix and
    without a pier correction never runs [load_state]; its correction
    stays [None] and is not the scalar 0. *)
Theorem init_with_matrix_leaves_correction_unset
    (m : ndarray) (statefile data_type location : option string)
    (inchannels outchannels : option (list string))
    (files : gmap string file) (err : list string) :
  let r := init (Some m) None statefile data_type location
                inchannels outchannels files err in
  fst r = Ok tt
  /\ matrix (self (snd r)) = m
  /\ pier_correction (self (snd r)) = None.
Proof. cbn. auto. Qed.

(** Without a matrix and without a state file the constructor does leave
    the identity and correction 0. *)
Lemma init_without_matrix_defaults
    (c : option float64) (data_type location : option string)
    (files : gmap string file) (err : list string) :
  let r := init None c None data_type location None None files err in
  fst r = Ok tt
  /\ matrix (self (snd r)) = np_eye 4
  /\ pier_correction (self (snd r)) = Some F64.zero.
Proof. cbn. auto. Qed.

(** With the correction left at [None], adjusting F fails: a float plus
    [None] is a [TypeError]. *)
Example process_without_correction_raises :
  process
    (self (snd (init (Some (np_eye 4)) None None None None None None ∅ [])))
    [sample_trace "H" 20000; sample_trace "E" (-30);
     sample_trace "Z" 45000; sample_trace "F" 50000]
  = Raise TypeError.
Proof. vm_compute. reflexivity. Qed.

(** ** List comprehensions that may raise *)

Section Rmap.

Context {A B : Type}.
Implicit Types (f : A -> result B) (l : list A).

Lemma rmap_ok_Forall2 f l (l' : list B) :
  Forall2 (fun x y => f x = Ok y) l l' -> rmap f l = Ok l'.
Proof.
  induction 1 as [|x y l l' Hxy _ IH]; cbn; [reflexivity|].
  rewrite Hxy. cbn. rewrite IH. reflexivity.
Qed.



End Rmap.

(** A comprehension over [range(n)] all of whose elements succeed. *)
Lemma rmap_range_ok {B} (f : nat -> result B) (P : nat -> B -> Prop)
    (n : nat) :
  (forall i, i < n -> exists y, f i = Ok y /\ P i y) ->
  exists l, rmap f (range n) = Ok l /\ length l = n
            /\ forall i, i < n -> exists y, l !! i = Some y /\ P i y.
Proof.
  unfold range. intros H.
  assert (Hgen : forall k,
    (forall i, i < n -> exists y, f (k + i) = Ok y /\ P (k + i) y) ->
    exists l, rmap f (seq k n) = Ok l /\ length l = n
              /\ forall i, i < n -> exists y, l !! i = Some y /\ P (k + i) y).
  { clear H. induction n as [|n IH]; intros k H.
    - exists []. split; [reflexivity|]. split; [reflexivity|].
      intros; lia.
    - destruct (H 0) as [y [Hy HP]]; [lia|].
      rewrite Nat.add_0_r in Hy, HP.
      destruct (IH (S k)) as [l [Hl [Hlen Hi]]].
      { intros i Hlt. destruct (H (S i)) as [z Hz]; [lia|].
        rewrite Nat.add_succ_r in Hz. eauto. }
      exists (y :: l). cbn. rewrite Hy. cbn. rewrite Hl.
      split; [reflexivity|]. split; [cbn; lia|].
      intros [|i] Hlt.
      + exists y. rewrite Nat.add_0_r. auto.
      + destruct (Hi i) as [z Hz]; [lia|].
        rewrite Nat.add_succ_r. exists z. exact Hz. }
  apply (Hgen 0). exact H.
Qed.

(** ** Batches that lack a channel *)

Lemma contains_true (x : string) (l : list string) :
  contains x l = true <-> x ∈ l.
Proof.
  unfold contains. rewrite existsb_exists. split.
  - intros [y [Hin Heq]]. apply String.eqb_eq in Heq as <-.
    apply list_elem_of_In. exact Hin.
  - intros Hin. exists x. split; [apply list_elem_of_In; exact Hin|].
    apply String.eqb_refl.
Qed.



Lemma first_trace_Some (c : string) (stream : Stream) (tr : Trace) :
  first_trace c stream = Some tr -> getitem (select c stream) 0 = Ok tr.
Proof.
  unfold first_trace, getitem. destruct (select c stream); [discriminate|].
  cbn. congruence.
Qed.

Lemma np_vstack_raise_inv (l : list (list float64)) (e : exn) :
  np_vstack l = Raise e -> e = ValueError.
Proof.
  unfold np_vstack. destruct l; [congruence|].
  destruct (forallb _ _); congruence.
Qed.






(** ** The identity calibration *)

Lemma filter_not_F (pre : list string) :
  "F" ∉ pre ->
  List.filter (fun channel => negb (String.eqb channel "F"))
              (pre ++ ["F"])%list = pre.
Proof.
  induction pre as [|c pre IH]; intros Hnot; [reflexivity|].
  cbn. destruct (String.eqb_spec c "F") as [->|_].
  - exfalso. apply Hnot. left.
  - cbn. f_equal. apply IH. intros Hin. apply Hnot. right. exact Hin.
Qed.

Lemma first_trace_elem (c : string) (stream : Stream) (tr : Trace) :
  first_trace c stream = Some tr -> tr ∈ stream.
Proof.
  unfold first_trace. intros H.
  assert (Hin : In tr (select c stream)).
  { destruct (select c stream); [discriminate|].
    injection H as ->. left. reflexivity. }
  apply filter_In in Hin as [Hin _]. apply list_elem_of_In. exact Hin.
Qed.

Lemma first_traces (stream : Stream) (l : list string) :
  (forall c, c ∈ l -> is_Some (first_trace c stream)) ->
  exists trs, Forall2 (fun c tr => first_trace c stream = Some tr) l trs.
Proof.
  induction l as [|c l IH]; intros H.
  - exists []. constructor.
  - destruct (H c) as [tr Htr]; [left|].
    destruct IH as [trs Htrs]; [intros c' Hc'; apply H; right; exact Hc'|].
    exists (tr :: trs). constructor; assumption.
Qed.

Lemma np_vstack_ok (l : list (list float64)) (T : nat) :
  l <> [] -> Forall (fun r => length r = T) l ->
  np_vstack l = Ok {| ncols := T; rows := l |}.
Proof.
  intros Hne Hall. unfold np_vstack. destruct l as [|r l]; [congruence|].
  assert (Hr : length r = T) by (inversion Hall; assumption).
  rewrite Hr.
  replace (forallb _ (r :: l)) with true; [reflexivity|].
  symmetry. apply forallb_forall. intros r' Hin.
  apply Nat.eqb_eq.
  exact (proj1 (Forall_forall _ _) Hall r' (proj2 (list_elem_of_In _ _) Hin)).
Qed.

Lemma samples_eq_add_zero_l (d : list float64) :
  Forall (fun x => F64.finite x = true) d ->
  samples_eq (map (F64.add F64.zero) d) d.
Proof.
  unfold samples_eq. induction 1; cbn; constructor; auto.
  apply add_zero_l_eqb. assumption.
Qed.

Lemma samples_eq_add_zero_r (d : list float64) :
  Forall (fun x => F64.finite x = true) d ->
  samples_eq (map (fun x => F64.add x F64.zero) d) d.
Proof.
  unfold samples_eq. induction 1; cbn; constructor; auto.
  apply add_zero_r_eqb. assumption.
Qed.

(** C2, amended: with the default identity matrix and correction 0, with
    F listed last among the inputs (after the N-1 other channels), at
    least N-1 configured outputs, and a batch that holds every input
    channel with equal-length samples that are all finite, [process]
    returns one output per non-F input, named after the output list and
    numerically equal to that input, followed, when F is an output, by an
    F channel numerically equal to the F input. *)
Theorem process_identity (a : AdjustedAlgorithm) (stream : Stream)
    (pre : list string) (T : nat) :
  get_input_channels a = (pre ++ ["F"])%list ->
  "F" ∉ pre ->
  length pre <= length (get_output_channels a) ->
  matrix a = np_eye (length (get_input_channels a)) ->
  pier_correction a = Some F64.zero ->
  (forall c, c ∈ get_input_channels a -> is_Some (first_trace c stream)) ->
  Forall (fun tr => length (data tr) = T
                    /\ Forall (fun x => F64.finite x = true) (data tr))
         stream ->
  exists out,
    process a stream = Ok out
    /\ length out
       = length pre
         + (if contains "F" (get_output_channels a) then 1 else 0)
    /\ (forall i c, pre !! i = Some c ->
          exists tr o,
            first_trace c stream = Some tr /\ out !! i = Some o
            /\ get_output_channels a !! i = Some (stats_channel (stats o))
            /\ stats_other (stats o) = stats_other (stats tr)
            /\ samples_eq (data o) (data tr))
    /\ (contains "F" (get_output_channels a) = true ->
          exists f o,
            first_trace "F" stream = Some f
            /\ out !! length pre = Some o
            /\ stats_channel (stats o) = "F"
            /\ stats_other (stats o) = stats_other (stats f)
            /\ samples_eq (data o) (data f)).
Proof.
  intros Hin HnotF Hlen Hmat Hpc Hall Hstream.
  assert (Hshape : forall c tr, first_trace c stream = Some tr ->
            length (data tr) = T
            /\ Forall (fun x => F64.finite x = true) (data tr)).
  { intros c tr Htr. apply first_trace_elem in Htr.
    exact (proj1 (Forall_forall _ _) Hstream tr Htr). }
  destruct (first_traces stream pre) as [trs Htrs].
  { intros c Hc. apply Hall. rewrite Hin. apply elem_of_app. left. exact Hc. }
  destruct (Hall "F") as [f Hf].
  { rewrite Hin. apply elem_of_app. right. left. }
  assert (Hfirst : exists first, getitem stream 0 = Ok first
                                /\ first ∈ stream).
  { apply first_trace_elem in Hf. destruct stream as [|tr0 rest].
    - inversion Hf.
    - exists tr0. split; [reflexivity|left]. }
  destruct Hfirst as [first [Hfirst Hfirst_in]].
  assert (Hfirst_shape := proj1 (Forall_forall _ _) Hstream first Hfirst_in).
  cbn beta in Hfirst_shape.
  set (raws := {| ncols := T;
                  rows := (map data trs ++ [np_ones_like (data first)])%list |}).
  assert (Hrows : length (rows raws) = length (get_input_channels a)).
  { cbn [rows raws]. rewrite Hin, !length_app, length_map.
    rewrite <- (Forall2_length _ _ _ Htrs). reflexivity. }
  assert (Hwf : wf_ndarray raws).
  { unfold wf_ndarray. cbn [rows ncols raws]. apply Forall_app. split.
    - apply Forall_map. eapply Forall2_Forall_r; [exact Htrs|].
      apply Forall_true. intros c tr Htr. apply (Hshape c tr Htr).
    - constructor; [|constructor]. unfold np_ones_like.
      rewrite length_map. apply Hfirst_shape. }
  assert (Hfin : Forall (Forall (fun x => F64.finite x = true)) (rows raws)).
  { cbn [rows raws]. apply Forall_app. split.
    - apply Forall_map. eapply Forall2_Forall_r; [exact Htrs|].
      apply Forall_true. intros c tr Htr. apply (Hshape c tr Htr).
    - constructor; [|constructor]. unfold np_ones_like.
      apply Forall_map, Forall_true. intros _. reflexivity. }
  unfold process. rewrite Hin, filter_not_F by assumption.
  rewrite (rmap_ok_Forall2 _ pre (map data trs)).
  2:{ apply Forall2_fmap_r. eapply Forall2_impl; [exact Htrs|].
      intros c tr Htr. cbn beta.
      rewrite (first_trace_Some _ _ _ Htr). reflexivity. }
  cbn [rbind]. rewrite Hfirst. cbn [rbind].
  rewrite (np_vstack_ok _ T).
  2:{ destruct (map data trs); discriminate. }
  2:{ exact Hwf. }
  cbn [rbind]. fold raws.
  rewrite Hmat, <- Hrows, (matmul_eye_rows raws Hwf Hfin).
  cbn [rbind rows].
  assert (Hn : length (map (map (F64.add F64.zero)) (rows raws)) - 1
               = length pre).
  { rewrite length_map, Hrows, Hin, length_app. cbn. lia. }
  rewrite Hn.
  match goal with
  | |- context [rmap ?g (range (length pre))] =>
      destruct (rmap_range_ok g
        (fun i o => exists c tr,
           pre !! i = Some c /\ first_trace c stream = Some tr
           /\ get_output_channels a !! i = Some (stats_channel (stats o))
           /\ stats_other (stats o) = stats_other (stats tr)
           /\ data o = map (F64.add F64.zero) (data tr))
        (length pre)) as [out [Hout [Hout_len Hout_i]]]
  end.
  { intros i Hi.
    destruct (lookup_lt_is_Some_2 pre i Hi) as [c Hc].
    destruct (lookup_lt_is_Some_2 (get_output_channels a) i) as [oc Hoc];
      [lia|].
    destruct (Forall2_lookup_l _ _ _ _ _ Htrs Hc) as [tr [Htr Hctr]].
    unfold getitem at 1. rewrite Hoc. cbn [rbind].
    assert (Hic : getitem (pre ++ ["F"])%list i = Ok c).
    { unfold getitem. rewrite lookup_app_l by exact Hi.
      rewrite Hc. reflexivity. }
    rewrite Hic. cbn [rbind].
    rewrite (first_trace_Some _ _ _ Hctr). cbn [rbind].
    unfold getitem. rewrite list_lookup_fmap. cbn [rows raws].
    rewrite lookup_app_l by (rewrite length_map;
      rewrite <- (Forall2_length _ _ _ Htrs); exact Hi).
    rewrite list_lookup_fmap, Htr. cbn.
    eexists. split; [reflexivity|].
    exists c, tr. cbn. destruct (data_type a); cbn; auto. }
  rewrite Hout. cbn [rbind].
  assert (HinF : contains "F" (pre ++ ["F"])%list = true).
  { apply contains_true, elem_of_app. right. left. }
  rewrite HinF. cbn [andb].
  assert (Hpre : forall i c, pre !! i = Some c ->
            exists tr o, first_trace c stream = Some tr
              /\ out !! i = Some o
              /\ get_output_channels a !! i = Some (stats_channel (stats o))
              /\ stats_other (stats o) = stats_other (stats tr)
              /\ samples_eq (data o) (data tr)).
  { intros i c Hc.
    destruct (Hout_i i) as [o [Ho [c' [tr [Hc' [Htr [Hoc [Hoth Hdata]]]]]]]].
    { eapply lookup_lt_Some; eauto. }
    assert (c' = c) as -> by congruence.
    exists tr, o. repeat (split; [assumption|]).
    rewrite Hdata. apply samples_eq_add_zero_l. apply (Hshape c tr Htr). }
  destruct (contains "F" (get_output_channels a)) eqn:HoutF.
  - rewrite (first_trace_Some _ _ _ Hf). cbn [rbind].
    rewrite Hpc. cbn [ndarray_add_scalar rbind].
    eexists. split; [reflexivity|]. split; [|split].
    + rewrite length_app, Hout_len. reflexivity.
    + intros i c Hc. destruct (Hpre i c Hc) as [tr [o [? [Ho ?]]]].
      exists tr, o. split; [assumption|]. split; [|assumption].
      rewrite lookup_app_l; [exact Ho|]. eapply lookup_lt_Some; eauto.
    + intros _. eexists f, _. split; [exact Hf|]. split.
      * rewrite lookup_app_r, Hout_len, Nat.sub_diag by lia. reflexivity.
      * cbn. destruct (data_type a); cbn; repeat split;
          apply samples_eq_add_zero_r, (Hshape "F" f Hf).
  - exists out. split; [reflexivity|]. split; [lia|].
    split; [exact Hpre|discriminate].
Qed.

Lemma process_identity_witness :
  exists out,
    process
      {| inchannels := ["H"; "E"; "Z"; "F"];
         outchannels := ["X"; "Y"; "Z"; "F"];
         matrix := np_eye 4; pier_correction := Some F64.zero;
         statefile := None; data_type := None; location := None |}
      [sample_trace "H" 20000; sample_trace "E" (-30);
       sample_trace "Z" 45000; sample_trace "F" 50000]
    = Ok out
    /\ length out = 4.
Proof.
  destruct (process_identity
    {| inchannels := ["H"; "E"; "Z"; "F"];
       outchannels := ["X"; "Y"; "Z"; "F"];
       matrix := np_eye 4; pier_correction := Some F64.zero;
       statefile := None; data_type := None; location := None |}
    [sample_trace "H" 20000; sample_trace "E" (-30);
     sample_trace "Z" 45000; sample_trace "F" 50000]
    ["H"; "E"; "Z"] 1) as [out [Hout [Hlen _]]].
  - reflexivity.
  - intros H. set_unfold in H. intuition discriminate.
  - cbn. lia.
  - reflexivity.
  - reflexivity.
  - intros c Hc. cbn in Hc. set_unfold in Hc.
    destruct Hc as [->|[->|[->|[->|[]]]]]; eexists; reflexivity.
  - repeat constructor.
  - exists out. split; [exact Hout|exact Hlen].
Defined.

(** C2 as stated fails when F is not the last input: with inputs F, H and
    outputs F, X, a batch of the two channels and the identity
    calibration, the first output carries the name of the first output
    channel and the metadata of the first input channel, F, but the
    samples of H; no output is numerically equal to its input F. *)
Lemma process_identity_F_first :
  let a := {| inchannels := ["F"; "H"]; outchannels := ["F"; "X"];
              matrix := np_eye 2; pier_correction := Some F64.zero;
              statefile := None; data_type := None; location := None |} in
  let batch := [sample_trace "F" 50000; sample_trace "H" 20000] in
  exists o rest,
    process a batch = Ok (o :: rest)
    /\ get_input_channels a !! 0 = Some "F"
    /\ get_output_channels a !! 0 = Some (stats_channel (stats o))
    /\ first_trace "F" batch = Some (sample_trace "F" 50000)
    /\ data o = [F64.of_Z 20000]
    /\ ~ samples_eq (data o) (data (sample_trace "F" 50000)).
Proof.
  cbn zeta. eexists _, _. split; [vm_compute; reflexivity|].
  repeat split. cbn [data]. intros H. inversion H as [|? ? ? ? Heq]; subst.
  vm_compute in Heq. discriminate.
Qed.

(** A NaN in one input channel also breaks the equality for the other
    matrix outputs: 0.0 times NaN is NaN, and the X sample is lost. *)
Example process_identity_nan_spreads :
  let a := {| inchannels := ["H"; "E"; "Z"; "F"];
              outchannels := ["X"; "Y"; "Z"; "F"];
              matrix := np_eye 4; pier_correction := Some F64.zero;
              statefile := None; data_type := None; location := None |} in
  let gap := {| stats := stats (sample_trace "E" 0); data := [F64.nan] |} in
  exists x rest,
    process a [sample_trace "H" 20000; gap; sample_trace "Z" 45000;
               sample_trace "F" 50000] = Ok (x :: rest)
    /\ stats_channel (stats x) = "X"
    /\ data x = [F64.nan].
Proof. cbn zeta. eexists _, _. split; [vm_compute; reflexivity|]. auto. Qed.

(** ** Loops *)

Section Loops.

Context {S A : Type}.
Implicit Types (body : A -> ST S unit) (l : list A) (s : S).

Lemma for__app body l1 l2 s :
  for_ (l1 ++ l2) body s = bind (for_ l1 body) (fun _ => for_ l2 body) s.
Proof.
  revert s. induction l1 as [|x l1 IH]; intros s; [reflexivity|].
  cbn [app for_]. unfold bind.
  destruct (body x s) as [[[]|e] s']; [|reflexivity].
  rewrite IH. reflexivity.
Qed.

(** A loop that meets a failing element after elements that all
    succeed stops there. *)
Lemma for__stops body l1 x l2 s s1 (e : exn) :
  for_ l1 body s = (Ok tt, s1) ->
  body x s1 = (Raise e, s1) ->
  for_ (l1 ++ x :: l2) body s = (Raise e, s1).
Proof.
  intros H1 Hx. rewrite for__app. unfold bind. rewrite H1.
  cbn [for_]. unfold bind. rewrite Hx. reflexivity.
Qed.

End Loops.

(** Two nested loops visit the pairs of [cells] in order. *)
Lemma for__nested {S} (body : nat * nat -> ST S unit) (n : nat) (s : S) :
  for_ (range n) (fun i => for_ (range n) (fun j => body (i, j))) s
  = for_ (cells n) body s.
Proof.
  unfold cells. generalize (range n) at 1 4 as l.
  intros l. revert s. induction l as [|i l IH]; intros s; [reflexivity|].
  cbn [for_ flat_map]. rewrite for__app. unfold bind.
  assert (Hinner : forall js s0,
            for_ js (fun j => body (i, j)) s0
            = for_ (map (pair i) js) body s0).
  { induction js as [|j js IHj]; intros s0; [reflexivity|].
    cbn [for_ map]. unfold bind.
    destruct (body (i, j) s0) as [[[]|e] s']; [|reflexivity].
    apply IHj. }
  rewrite Hinner.
  destruct (for_ (map (pair i) (range n)) body s) as [[[]|e] s'];
    [|reflexivity].
  apply IH.
Qed.

Lemma elem_of_cells (n : nat) (p : nat * nat) :
  p ∈ cells n <-> fst p < n /\ snd p < n.
Proof.
  unfold cells, range. rewrite list_elem_of_In, in_flat_map. split.
  - intros [i [Hi Hp]]. apply in_map_iff in Hp as [j [<- Hj]].
    apply in_seq in Hi, Hj. cbn. lia.
  - intros [Hi Hj]. exists (fst p). split; [apply in_seq; lia|].
    apply in_map_iff. exists (snd p). split; [destruct p; reflexivity|].
    apply in_seq. lia.
Qed.

(** ** Array cells *)

Lemma ndarray_getitem_cell (a : ndarray) (i j : nat) :
  ndarray_getitem a i j
  = match cell a i j with
    | Some x => Ok x
    | None => Raise IndexError
    end.
Proof.
  unfold ndarray_getitem, cell, getitem.
  destruct (rows a !! i); reflexivity.
Qed.

Lemma cell_is_Some (a : ndarray) (i j : nat) :
  is_Some (cell a i j)
  <-> exists n, row_lengths a !! i = Some n /\ j < n.
Proof.
  unfold cell, row_lengths.
  change (map length (rows a)) with (length <$> rows a).
  rewrite list_lookup_fmap.
  destruct (rows a !! i) as [r|]; cbn.
  - rewrite lookup_lt_is_Some. split.
    + intros H. exists (length r). auto.
    + intros [n [[= <-] H]]. exact H.
  - split; [intros [x Hx]; discriminate|intros [n [Hn _]]; discriminate].
Qed.

Lemma row_lengths_set (a : ndarray) (i j : nat) (x : float64) :
  row_lengths (ndarray_set a i j x) = row_lengths a.
Proof.
  unfold row_lengths, ndarray_set. cbn [rows].
  apply list_eq. intros k.
  change (map length ?l) with (length <$> l).
  rewrite !list_lookup_fmap, list_lookup_alter.
  destruct (decide (i = k)) as [->|]; [|reflexivity].
  destruct (rows a !! k); cbn; [|reflexivity].
  rewrite length_insert. reflexivity.
Qed.

Lemma cell_set_eq (a : ndarray) (i j : nat) (x : float64) :
  is_Some (cell a i j) -> cell (ndarray_set a i j x) i j = Some x.
Proof.
  unfold cell, ndarray_set. cbn [rows]. rewrite list_lookup_alter_eq.
  destruct (rows a !! i) as [r|]; cbn; [|intros [y Hy]; discriminate].
  intros Hj. apply list_lookup_insert_eq, lookup_lt_is_Some. exact Hj.
Qed.

Lemma cell_set_ne (a : ndarray) (i j i' j' : nat) (x : float64) :
  (i, j) <> (i', j') ->
  cell (ndarray_set a i j x) i' j' = cell a i' j'.
Proof.
  intros Hne. unfold cell, ndarray_set. cbn [rows].
  rewrite list_lookup_alter.
  destruct (decide (i = i')) as [->|]; [|reflexivity].
  destruct (rows a !! i') as [r|]; cbn; [|reflexivity].
  apply list_lookup_insert_ne. congruence.
Qed.

(** Two arrays of one shape with the same cells are the same array. *)
Lemma ndarray_ext (a b : ndarray) :
  ncols a = ncols b ->
  row_lengths a = row_lengths b ->
  (forall i j, cell a i j = cell b i j) ->
  a = b.
Proof.
  destruct a as [ca ra], b as [cb rb].
  unfold row_lengths, cell. cbn [ncols rows].
  intros -> Hlen Hcell. f_equal.
  apply list_eq. intros i.
  assert (Hi := f_equal (fun l => l !! i) Hlen). cbn beta in Hi.
  change (map length ?l) with (length <$> l) in Hi.
  rewrite !list_lookup_fmap in Hi.
  specialize (Hcell i).
  destruct (ra !! i) as [r1|], (rb !! i) as [r2|]; try discriminate;
    [|reflexivity].
  f_equal. apply list_eq. exact Hcell.
Qed.

Lemma fill_cons (d : gmap string jvalue) (p : nat * nat)
    (ps : list (nat * nat)) (a : ndarray) :
  fill d (p :: ps) a
  = fill d ps (match d !! cell_key (fst p) (snd p) with
               | Some v => ndarray_set a (fst p) (snd p) (np_float64 v)
               | None => a
               end).
Proof. reflexivity. Qed.

Lemma ncols_fill (d : gmap string jvalue) (ps : list (nat * nat))
    (a : ndarray) :
  ncols (fill d ps a) = ncols a.
Proof.
  revert a. induction ps as [|p ps IH]; intros a; [reflexivity|].
  rewrite fill_cons, IH. destruct (d !! _); reflexivity.
Qed.

Lemma row_lengths_fill (d : gmap string jvalue) (ps : list (nat * nat))
    (a : ndarray) :
  row_lengths (fill d ps a) = row_lengths a.
Proof.
  revert a. induction ps as [|p ps IH]; intros a; [reflexivity|].
  rewrite fill_cons, IH. destruct (d !! _); [|reflexivity].
  apply row_lengths_set.
Qed.

Lemma cell_fill_notin (d : gmap string jvalue) (ps : list (nat * nat))
    (a : ndarray) (i j : nat) :
  (i, j) ∉ ps -> cell (fill d ps a) i j = cell a i j.
Proof.
  revert a. induction ps as [|p ps IH]; intros a Hnot; [reflexivity|].
  rewrite fill_cons, IH by (intros H; apply Hnot; right; exact H).
  destruct (d !! _); [|reflexivity].
  apply cell_set_ne. intros Heq. apply Hnot. rewrite <- Heq.
  destruct p. left.
Qed.

Lemma cell_fill_in (d : gmap string jvalue) (ps : list (nat * nat))
    (a : ndarray) (i j : nat) (v : jvalue) :
  (i, j) ∈ ps -> d !! cell_key i j = Some v -> is_Some (cell a i j) ->
  cell (fill d ps a) i j = Some (np_float64 v).
Proof.
  intros Hin Hv. revert a Hin.
  induction ps as [|p ps IH]; intros a Hin Hsome; [inversion Hin|].
  rewrite fill_cons.
  assert (Hkeep : forall a', row_lengths a' = row_lengths a ->
                             is_Some (cell a' i j)).
  { intros a' Ha'. apply cell_is_Some. rewrite Ha'.
    apply cell_is_Some. exact Hsome. }
  destruct (decide ((i, j) ∈ ps)) as [Hps|Hps].
  - apply IH; [exact Hps|]. apply Hkeep.
    destruct (d !! cell_key (fst p) (snd p));
      [apply row_lengths_set|reflexivity].
  - apply elem_of_cons in Hin as [<-|Hin]; [|contradiction].
    cbn [fst snd]. rewrite Hv, cell_fill_notin by exact Hps.
    apply cell_set_eq. exact Hsome.
Qed.

(** The identity is square, and so is every square array that was
    filled. *)
Lemma square_eye (n : nat) : square n (np_eye n).
Proof.
  unfold square, np_eye, row_lengths, eye_row, range. cbn [ncols rows].
  split; [reflexivity|].
  rewrite map_map. apply list_eq. intros i.
  change (map ?f ?l) with (f <$> l). rewrite list_lookup_fmap.
  destruct (decide (i < n)) as [Hi|Hi].
  - rewrite lookup_seq_lt, lookup_replicate_2 by exact Hi. cbn.
    rewrite length_map, length_seq. reflexivity.
  - rewrite lookup_seq_ge by lia. symmetry. apply lookup_ge_None.
    rewrite length_replicate. lia.
Qed.

Lemma square_cell (n : nat) (a : ndarray) (i j : nat) :
  square n a -> (is_Some (cell a i j) <-> i < n /\ j < n).
Proof.
  intros [_ Hrows]. rewrite cell_is_Some, Hrows. split.
  - intros [k [Hk Hj]]. apply lookup_replicate_1 in Hk as [-> Hi]. auto.
  - intros [Hi Hj]. exists n. split; [|exact Hj].
    apply lookup_replicate_2. exact Hi.
Qed.

Lemma square_fill (n : nat) (d : gmap string jvalue)
    (ps : list (nat * nat)) (a : ndarray) :
  square n a -> square n (fill d ps a).
Proof.
  unfold square. rewrite ncols_fill, row_lengths_fill. auto.
Qed.

(** ** Loading a record *)

Lemma load_cell_ok (d : gmap string jvalue) (p : nat * nat) (v : jvalue)
    (a : ndarray) (h : heap) :
  d !! cell_key (fst p) (snd p) = Some v ->
  is_Some (cell a (fst p) (snd p)) ->
  load_cell d p (heap_with_matrix a h)
  = (Ok tt, heap_with_matrix (ndarray_set a (fst p) (snd p) (np_float64 v)) h).
Proof.
  intros Hv [x Hx].
  unfold load_cell, matrix_setitem, bind, lift, dict_getitem, get_self,
    set_matrix, modify, ndarray_setitem.
  rewrite Hv. cbn [self heap_with_matrix with_matrix matrix].
  rewrite ndarray_getitem_cell, Hx. reflexivity.
Qed.

Lemma load_cell_missing (d : gmap string jvalue) (p : nat * nat) (h : heap) :
  d !! cell_key (fst p) (snd p) = None ->
  load_cell d p h = (Raise (KeyError (cell_key (fst p) (snd p))), h).
Proof.
  intros Hv. unfold load_cell, bind, lift, dict_getitem. rewrite Hv.
  reflexivity.
Qed.

(** When the record has every key of [ps] and the array every cell, the
    loops run to their end and leave the filled array. *)
Lemma load_cells_ok (d : gmap string jvalue) (ps : list (nat * nat))
    (h : heap) (a : ndarray) :
  (forall p, p ∈ ps -> is_Some (d !! cell_key (fst p) (snd p))
                       /\ is_Some (cell a (fst p) (snd p))) ->
  for_ ps (load_cell d) (heap_with_matrix a h)
  = (Ok tt, heap_with_matrix (fill d ps a) h).
Proof.
  revert a. induction ps as [|p ps IH]; intros a Hps; [reflexivity|].
  destruct (Hps p) as [[v Hv] Hcell]; [left|].
  cbn [for_]. unfold bind. rewrite (load_cell_ok d p v a h Hv Hcell).
  rewrite fill_cons, Hv. apply IH.
  intros q Hq. destruct (Hps q) as [Hq1 Hq2]; [right; exact Hq|].
  split; [exact Hq1|].
  apply cell_is_Some. rewrite row_lengths_set. apply cell_is_Some. exact Hq2.
Qed.

(** A list with an element that fails a decidable test splits at the
    first such element. *)
Lemma first_failure {A} (P : A -> Prop) `{!forall x, Decision (P x)}
    (l : list A) :
  (exists x, x ∈ l /\ ~ P x) ->
  exists l1 x l2, l = (l1 ++ x :: l2)%list /\ Forall P l1 /\ ~ P x.
Proof.
  induction l as [|y l IH]; intros [x [Hin Hx]]; [inversion Hin|].
  destruct (decide (P y)) as [Hy|Hy].
  - destruct IH as [l1 [z [l2 [-> [H1 Hz]]]]].
    { apply elem_of_cons in Hin as [->|Hin]; [contradiction|eauto]. }
    exists (y :: l1), z, l2. split; [reflexivity|]. split; [|exact Hz].
    constructor; assumption.
  - exists [], y, l. split; [reflexivity|]. split; [constructor|exact Hy].
Qed.

(** When a key of [ps] is missing, the loops stop at the first missing
    key with a [KeyError], leaving the cells before it overwritten. *)
Lemma load_cells_raise (d : gmap string jvalue) (ps : list (nat * nat))
    (h : heap) (a : ndarray) :
  (forall p, p ∈ ps -> is_Some (cell a (fst p) (snd p))) ->
  (exists p, p ∈ ps /\ d !! cell_key (fst p) (snd p) = None) ->
  exists ps1 p ps2,
    ps = (ps1 ++ p :: ps2)%list
    /\ d !! cell_key (fst p) (snd p) = None
    /\ for_ ps (load_cell d) (heap_with_matrix a h)
       = (Raise (KeyError (cell_key (fst p) (snd p))),
          heap_with_matrix (fill d ps1 a) h).
Proof.
  intros Hcells [p0 [Hin0 Hnone0]].
  destruct (first_failure
              (fun p => is_Some (d !! cell_key (fst p) (snd p))) ps)
    as [ps1 [p [ps2 [-> [Hps1 Hp]]]]].
  { exists p0. split; [exact Hin0|]. rewrite Hnone0. intros [v Hv].
    discriminate. }
  assert (Hnone : d !! cell_key (fst p) (snd p) = None).
  { destruct (d !! cell_key (fst p) (snd p));
      [exfalso; apply Hp; eauto|reflexivity]. }
  exists ps1, p, ps2. split; [reflexivity|]. split; [exact Hnone|].
  apply for__stops.
  - apply load_cells_ok. intros q Hq. split.
    + exact (proj1 (Forall_forall _ _) Hps1 q Hq).
    + apply Hcells, elem_of_app. left. exact Hq.
  - apply load_cell_missing. exact Hnone.
Qed.

(** [load_state] on a state file that holds a record: the reset, the
    removal of "PC", the inference of the dimension, and the loops. *)
Lemma load_state_record (h : heap) (path : string)
    (d : gmap string jvalue) :
  statefile (self h) = Some path ->
  fs h !! path = Some (Regular (TJson (JObj d))) ->
  load_state h
  = match d !! "PC" with
    | None =>
        (Raise (KeyError "PC"),
         {| self := default_state (self h); fs := fs h;
            stderr := stderr h |})
    | Some PC =>
        let h1 :=
          {| self := with_pier_correction (Some (np_float64 PC))
                       (default_state (self h));
             fs := fs h; stderr := stderr h |} in
        match inferred_dimension d with
        | Raise e => (Raise e, h1)
        | Ok n =>
            for_ (cells n) (load_cell (delete "PC" d))
                 (heap_with_matrix (np_eye n) h1)
        end
    end.
Proof.
  intros Hpath Hfile. run_load. rewrite Hpath.
  unfold open_read. cbn [fs]. rewrite Hfile. cbn [json_loads].
  unfold dict_getitem at 1.
  destruct (d !! "PC") as [PC|]; [|reflexivity].
  cbn zeta. unfold inferred_dimension.
  destruct (py_max (dict_keys (delete "PC" d))) as [k|e]; [|reflexivity].
  cbn [rbind].
  destruct (str_last k) as [c|e]; [|reflexivity].
  cbn [rbind].
  destruct (int_of_char c) as [n|e]; [|reflexivity].
  exact (for__nested (load_cell (delete "PC" d)) n _).
Qed.

Lemma cell_key_not_PC (i j : nat) : cell_key i j <> "PC".
Proof. unfold cell_key. cbn [String.append]. discriminate. Qed.

(** When the state file holds a record and a cell key is missing for the
    dimension [n] that the code itself infers (the last character of the
    greatest key), [load_state] raises a [KeyError] (for "PC" when that
    key is missing too, otherwise for the first missing cell key) and
    returns no matrix to its caller. *)
Lemma load_state_missing_cell_key (h : heap) (path : string)
    (d : gmap string jvalue) (n i j : nat) :
  statefile (self h) = Some path ->
  fs h !! path = Some (Regular (TJson (JObj d))) ->
  inferred_dimension d = Ok n ->
  i < n -> j < n ->
  d !! cell_key i j = None ->
  exists key, fst (load_state h) = Raise (KeyError key)
              /\ d !! key = None.
Proof.
  intros Hpath Hfile Hdim Hi Hj Hnone.
  rewrite (load_state_record h path d Hpath Hfile).
  destruct (d !! "PC") as [PC|] eqn:HPC.
  - cbn zeta. rewrite Hdim.
    match goal with
    | |- context [for_ _ _ (heap_with_matrix _ ?h1)] =>
        destruct (load_cells_raise (delete "PC" d) (cells n) h1 (np_eye n))
          as [ps1 [p [ps2 [_ [Hp Hrun]]]]]
    end.
    + intros p Hp. apply (square_cell n); [apply square_eye|].
      apply elem_of_cells. exact Hp.
    + exists (i, j). split; [apply elem_of_cells; cbn; lia|].
      cbn [fst snd]. rewrite lookup_delete_ne by (symmetry; apply cell_key_not_PC).
      exact Hnone.
    + rewrite Hrun. eexists. split; [reflexivity|].
      rewrite lookup_delete_ne in Hp by (symmetry; apply cell_key_not_PC).
      exact Hp.
  - exists "PC". split; [reflexivity|exact HPC].
Qed.

(** C10: [load_state] never depends on the calibration held before the
    call: it gives the same outcome and the same final instance whatever
    matrix and correction were stored.  On a record without "PC" it
    raises with the instance at the identity sized to the input channels
    and correction 0; on a record with "PC" that lacks a cell key of the
    inferred dimension [n] it raises with the correction of the record
    and a fresh [n] by [n] identity in which the cells before the missing
    key are already overwritten. *)
Theorem load_state_discards_calibration (h : heap) :
  (forall (m : ndarray) (c : option float64),
     load_state {| self := with_pier_correction c (with_matrix m (self h));
                   fs := fs h; stderr := stderr h |}
     = load_state h)
  /\ (forall path d,
        statefile (self h) = Some path ->
        fs h !! path = Some (Regular (TJson (JObj d))) ->
        d !! "PC" = None ->
        load_state h
        = (Raise (KeyError "PC"),
           {| self := default_state (self h); fs := fs h;
              stderr := stderr h |}))
  /\ (forall path d PC n,
        statefile (self h) = Some path ->
        fs h !! path = Some (Regular (TJson (JObj d))) ->
        d !! "PC" = Some PC ->
        inferred_dimension d = Ok n ->
        (exists i j, i < n /\ j < n /\ d !! cell_key i j = None) ->
        exists done p rest,
          cells n = (done ++ p :: rest)%list
          /\ d !! cell_key (fst p) (snd p) = None
          /\ load_state h
             = (Raise (KeyError (cell_key (fst p) (snd p))),
                {| self := with_matrix
                             (fill (delete "PC" d) done (np_eye n))
                             (with_pier_correction (Some (np_float64 PC))
                                (default_state (self h)));
                   fs := fs h; stderr := stderr h |})).
Proof.
  split; [|split].
  - intros m c. destruct h. reflexivity.
  - intros path d Hpath Hfile HPC.
    rewrite (load_state_record h path d Hpath Hfile), HPC. reflexivity.
  - intros path d PC n Hpath Hfile HPC Hdim [i [j [Hi [Hj Hnone]]]].
    rewrite (load_state_record h path d Hpath Hfile), HPC.
    cbn zeta. rewrite Hdim.
    match goal with
    | |- context [for_ _ _ (heap_with_matrix _ ?h1)] =>
        destruct (load_cells_raise (delete "PC" d) (cells n) h1 (np_eye n))
          as [ps1 [p [ps2 [Hsplit [Hp Hrun]]]]]
    end.
    + intros p Hp. apply (square_cell n); [apply square_eye|].
      apply elem_of_cells. exact Hp.
    + exists (i, j). split; [apply elem_of_cells; cbn; lia|].
      cbn [fst snd].
      rewrite lookup_delete_ne by (symmetry; apply cell_key_not_PC).
      exact Hnone.
    + exists ps1, p, ps2. split; [exact Hsplit|].
      rewrite lookup_delete_ne in Hp by (symmetry; apply cell_key_not_PC).
      split; [exact Hp|]. rewrite Hrun. reflexivity.
Qed.

Lemma load_state_missing_cell_key_witness :
  exists key,
    fst (load_state
           {| self := {| inchannels := ["H"; "E"; "Z"; "F"];
                         outchannels := ["X"; "Y"; "Z"; "F"];
                         matrix := np_eye 4;
                         pier_correction := Some F64.zero;
                         statefile := Some "state.json";
                         data_type := None; location := None |};
              fs := {[ "state.json" :=
                         Regular (TJson (JObj
                           (<[ "PC" := JVNum F64.zero ]>
                              (<[ "M11" := JVNum F64.one ]>
                                 {[ "M22" := JVNum F64.one ]})))) ]};
              stderr := [] |})
    = Raise (KeyError key)
    /\ (<[ "PC" := JVNum F64.zero ]>
          (<[ "M11" := JVNum F64.one ]>
             ({[ "M22" := JVNum F64.one ]} : gmap string jvalue)))
       !! key = None.
Proof.
  apply (load_state_missing_cell_key _ "state.json" _ 2 0 1).
  - reflexivity.
  - vm_compute. reflexivity.
  - vm_compute. reflexivity.
  - lia.
  - lia.
  - vm_compute. reflexivity.
Defined.

(** C6 (what the code does): the dimension is not the greatest row or
    column digit of the record but the last character of its greatest
    key.  On the record with keys PC, M11, M12 and M21 the greatest digit
    is 2 and the cell key M22 is missing, yet the greatest key is "M21",
    the code infers dimension 1, reads M11 alone and returns a 1 by 1
    matrix without any [KeyError]. *)
Theorem load_state_partial_record_returns (h : heap) (path : string) :
  statefile (self h) = Some path ->
  fs h !! path = Some (Regular (TJson (JObj partial_record))) ->
  spec_dimension partial_record = 2
  /\ partial_record !! cell_key 1 0 = Some (JVNum (F64.of_Z 3))
  /\ partial_record !! cell_key 1 1 = None
  /\ inferred_dimension partial_record = Ok 1
  /\ load_state h
     = (Ok tt,
        {| self := with_matrix {| ncols := 1; rows := [[F64.of_Z 1]] |}
                     (with_pier_correction (Some F64.zero)
                        (default_state (self h)));
           fs := fs h; stderr := stderr h |}).
Proof.
  intros Hpath Hfile.
  assert (HPC : partial_record !! "PC" = Some (JVNum F64.zero))
    by (vm_compute; reflexivity).
  assert (Hdim : inferred_dimension partial_record = Ok 1)
    by (vm_compute; reflexivity).
  assert (Hfill : fill (delete "PC" partial_record) (cells 1) (np_eye 1)
                  = {| ncols := 1; rows := [[F64.of_Z 1]] |})
    by (vm_compute; reflexivity).
  split; [vm_compute; reflexivity|].
  split; [vm_compute; reflexivity|].
  split; [vm_compute; reflexivity|].
  split; [exact Hdim|].
  rewrite (load_state_record h path partial_record Hpath Hfile), HPC.
  cbn zeta. rewrite Hdim, load_cells_ok.
  - rewrite Hfill. reflexivity.
  - intros [i j] Hp. apply elem_of_cells in Hp as [Hi Hj].
    cbn [fst snd] in *.
    assert (i = 0) as -> by lia. assert (j = 0) as -> by lia.
    split; [vm_compute; eauto|].
    apply (square_cell 1); [apply square_eye|lia].
Qed.

Lemma load_state_partial_record_returns_witness :
  load_state
    {| self := {| inchannels := ["H"; "E"; "Z"; "F"];
                  outchannels := ["X"; "Y"; "Z"; "F"];
                  matrix := np_eye 4;
                  pier_correction := Some (F64.of_Z 7);
                  statefile := Some "state.json";
                  data_type := None; location := None |};
       fs := {[ "state.json" := Regular (TJson (JObj partial_record)) ]};
       stderr := [] |}
  = (Ok tt,
     {| self := {| inchannels := ["H"; "E"; "Z"; "F"];
                   outchannels := ["X"; "Y"; "Z"; "F"];
                   matrix := {| ncols := 1; rows := [[F64.of_Z 1]] |};
                   pier_correction := Some F64.zero;
                   statefile := Some "state.json";
                   data_type := None; location := None |};
        fs := {[ "state.json" := Regular (TJson (JObj partial_record)) ]};
        stderr := [] |}).
Proof.
  destruct (load_state_partial_record_returns
    {| self := {| inchannels := ["H"; "E"; "Z"; "F"];
                  outchannels := ["X"; "Y"; "Z"; "F"];
                  matrix := np_eye 4;
                  pier_correction := Some (F64.of_Z 7);
                  statefile := Some "state.json";
                  data_type := None; location := None |};
       fs := {[ "state.json" := Regular (TJson (JObj partial_record)) ]};
       stderr := [] |}
    "state.json") as [_ [_ [_ [_ H]]]].
  - reflexivity.
  - cbn [fs]. apply lookup_singleton_eq.
  - rewrite H. reflexivity.
Defined.

Lemma load_state_discards_calibration_witness :
  fst (load_state
         {| self := {| inchannels := ["H"; "E"; "Z"; "F"];
                       outchannels := ["X"; "Y"; "Z"; "F"];
                       matrix := np_eye 2;
                       pier_correction := Some (F64.of_Z 7);
                       statefile := Some "state.json";
                       data_type := None; location := None |};
            fs := {[ "state.json" :=
                       Regular (TJson (JObj {[ "M11" := JVNum F64.one ]})) ]};
            stderr := [] |})
  = Raise (KeyError "PC").
Proof.
  destruct (load_state_discards_calibration
    {| self := {| inchannels := ["H"; "E"; "Z"; "F"];
                  outchannels := ["X"; "Y"; "Z"; "F"];
                  matrix := np_eye 2;
                  pier_correction := Some (F64.of_Z 7);
                  statefile := Some "state.json";
                  data_type := None; location := None |};
       fs := {[ "state.json" :=
                  Regular (TJson (JObj {[ "M11" := JVNum F64.one ]})) ]};
       stderr := [] |}) as [_ [H _]].
  rewrite (H "state.json" {[ "M11" := JVNum F64.one ]}).
  - reflexivity.
  - reflexivity.
  - vm_compute. reflexivity.
  - vm_compute. reflexivity.
Defined.

(** ** Saving *)

Lemma record_of_cons (m : ndarray) (p : nat * nat) (ps : list (nat * nat))
    (d : gmap string jvalue) :
  record_of m (p :: ps) d
  = record_of m ps
      (<[cell_key (fst p) (snd p) :=
           JVNum (default F64.zero (cell m (fst p) (snd p)))]> d).
Proof. reflexivity. Qed.

Lemma save_cells_ok (m : ndarray) (ps : list (nat * nat))
    (d : gmap string jvalue) :
  (forall p, p ∈ ps -> is_Some (cell m (fst p) (snd p))) ->
  for_ ps (save_cell m) d = (Ok tt, record_of m ps d).
Proof.
  revert d. induction ps as [|p ps IH]; intros d Hps; [reflexivity|].
  destruct (Hps p) as [x Hx]; [left|].
  cbn [for_]. unfold bind at 1, save_cell at 1, bind, lift, modify.
  rewrite ndarray_getitem_cell, Hx.
  rewrite IH by (intros q Hq; apply Hps; right; exact Hq).
  rewrite record_of_cons, Hx. reflexivity.
Qed.

Lemma record_of_lookup_notin (m : ndarray) (ps : list (nat * nat))
    (d : gmap string jvalue) (k : string) :
  (forall p, p ∈ ps -> cell_key (fst p) (snd p) <> k) ->
  record_of m ps d !! k = d !! k.
Proof.
  revert d. induction ps as [|p ps IH]; intros d Hps; [reflexivity|].
  rewrite record_of_cons.
  rewrite IH by (intros q Hq; apply Hps; right; exact Hq).
  apply lookup_insert_ne, Hps. left.
Qed.

Lemma record_of_lookup_in (m : ndarray) (ps : list (nat * nat))
    (d : gmap string jvalue) (p : nat * nat) :
  p ∈ ps ->
  (forall q, q ∈ ps -> cell_key (fst q) (snd q) = cell_key (fst p) (snd p)
                       -> q = p) ->
  record_of m ps d !! cell_key (fst p) (snd p)
  = Some (JVNum (default F64.zero (cell m (fst p) (snd p)))).
Proof.
  revert d. induction ps as [|q ps IH]; intros d Hin Hinj; [inversion Hin|].
  rewrite record_of_cons.
  destruct (decide (p ∈ ps)) as [Hps|Hps].
  - apply IH; [exact Hps|]. intros q' Hq'. apply Hinj. right. exact Hq'.
  - apply elem_of_cons in Hin as [->|Hin]; [|contradiction].
    rewrite record_of_lookup_notin; [apply lookup_insert_eq|].
    intros q' Hq' Heq. apply Hps.
    rewrite <- (Hinj q'); [exact Hq'|right; exact Hq'|exact Heq].
Qed.

(** [save_state] on a square matrix of dimension at least 1, to a path
    that can be written. *)
Lemma save_state_square (h : heap) (path : string) (n : nat) :
  statefile (self h) = Some path ->
  square n (matrix (self h)) -> 1 <= n ->
  (forall err, fs h !! path <> Some (Denied err)) ->
  save_state h
  = (Ok tt,
     {| self := self h;
        fs := <[path := Regular (json_dumps
                 (record_of (matrix (self h)) (cells n)
                    {[ "PC" := json_of_correction
                                 (pier_correction (self h)) ]}))]> (fs h);
        stderr := stderr h |}).
Proof.
  intros Hpath Hsq Hn Hfile.
  unfold save_state, bind at 1, get_self. rewrite Hpath.
  assert (Hlen : ndarray_len_row0 (matrix (self h)) = Ok n).
  { destruct Hsq as [Hc Hr]. unfold ndarray_len_row0, row_lengths in *.
    destruct (rows (matrix (self h))).
    - destruct n; [lia|discriminate].
    - rewrite Hc. reflexivity. }
  unfold bind at 1, lift at 1. rewrite Hlen.
  unfold bind at 1, with_local.
  match goal with
  | |- context [for_ (range n) ?body ?d0] =>
      replace (for_ (range n) body d0)
        with (Ok tt, record_of (matrix (self h)) (cells n) d0)
  end.
  2:{ symmetry.
      etransitivity;
        [exact (for__nested (save_cell (matrix (self h))) n _)|].
      apply save_cells_ok. intros p Hp.
      apply (square_cell n _ _ _ Hsq), elem_of_cells, Hp. }
  unfold write_file, open_write.
  destruct (fs h !! path) as [[err|t]|] eqn:Hf; try reflexivity.
  exfalso. exact (Hfile err eq_refl).
Qed.

(** ** The keys of a matrix of dimension at most 9 *)

(** Three facts checked by running the definitions over every dimension
    up to 9: distinct cells have distinct keys, no key is above the key
    of the last cell, and the last character of that key is the
    dimension. *)
Lemma keys_distinct_9 :
  forallb (fun p =>
    forallb (fun q =>
      implb (String.eqb (cell_key (fst p) (snd p))
                        (cell_key (fst q) (snd q)))
            (bool_decide (p = q)))
      (cells 9)) (cells 9) = true.
Proof. vm_compute. reflexivity. Qed.

Lemma keys_below_last_9 :
  forallb (fun n =>
    forallb (fun p =>
      negb (str_gt (cell_key (fst p) (snd p)) (cell_key (n - 1) (n - 1))))
      (cells n)) (range 10) = true.
Proof. vm_compute. reflexivity. Qed.

Lemma last_key_digit_9 :
  forallb (fun n =>
    match (let? c := str_last (cell_key (n - 1) (n - 1)) in
           int_of_char c)%result with
    | Ok k => (k =? n)%nat
    | Raise _ => false
    end) (seq 1 9) = true.
Proof. vm_compute. reflexivity. Qed.

Lemma cell_key_inj (p q : nat * nat) :
  p ∈ cells 9 -> q ∈ cells 9 ->
  cell_key (fst p) (snd p) = cell_key (fst q) (snd q) -> p = q.
Proof.
  intros Hp Hq Heq.
  pose proof keys_distinct_9 as H.
  rewrite forallb_forall in H.
  specialize (H p (proj1 (list_elem_of_In _ _) Hp)).
  rewrite forallb_forall in H.
  specialize (H q (proj1 (list_elem_of_In _ _) Hq)).
  rewrite Heq, String.eqb_refl in H. cbn in H.
  apply bool_decide_eq_true in H. exact H.
Qed.

Lemma cell_key_le_last (n : nat) (p : nat * nat) :
  n <= 9 -> p ∈ cells n ->
  str_gt (cell_key (fst p) (snd p)) (cell_key (n - 1) (n - 1)) = false.
Proof.
  intros Hn Hp.
  pose proof keys_below_last_9 as H.
  rewrite forallb_forall in H.
  specialize (H n). rewrite forallb_forall in H.
  apply negb_true_iff, H; [apply in_seq; lia|].
  apply list_elem_of_In, Hp.
Qed.

Lemma last_key_dimension (n : nat) :
  1 <= n <= 9 ->
  (let? c := str_last (cell_key (n - 1) (n - 1)) in int_of_char c)%result
  = Ok n.
Proof.
  intros Hn.
  pose proof last_key_digit_9 as H.
  rewrite forallb_forall in H.
  specialize (H n). 
  destruct (let? c := str_last (cell_key (n - 1) (n - 1)) in int_of_char c)%result
    as [k|e].
  - f_equal. apply Nat.eqb_eq, H, in_seq. lia.
  - discriminate H. apply in_seq. lia.
Qed.

(** [max] returns an element that no element exceeds. *)
Lemma py_max_top (l : list string) (top : string) :
  top ∈ l ->
  (forall k, k ∈ l -> str_gt k top = false) ->
  py_max l = Ok top.
Proof.
  assert (Hstep : forall l m,
    (forall k, k ∈ m :: l -> str_gt k top = false) ->
    m = top \/ top ∈ l ->
    fold_left (fun m k => if str_gt k m then k else m) l m = top).
  { clear l. induction l as [|k l IH]; intros m Hle Htop.
    - destruct Htop as [->|Htop]; [reflexivity|inversion Htop].
    - cbn [fold_left]. apply IH.
      + intros k' Hk'. apply elem_of_cons in Hk' as [->|Hk'].
        * destruct (str_gt k m); apply Hle; [right; left|left].
        * apply Hle. right. right. exact Hk'.
      + destruct Htop as [->|Htop].
        * left. rewrite Hle; [reflexivity|right; left].
        * apply elem_of_cons in Htop as [<-|Htop]; [|right; exact Htop].
          left. destruct (str_gt top m) eqn:Hgt; [reflexivity|].
          assert (Hm : str_gt m top = false) by (apply Hle; left).
          unfold str_gt in Hgt, Hm.
          rewrite String.compare_antisym in Hm.
          destruct (String.compare top m) eqn:Hc; try discriminate.
          symmetry. apply String.compare_eq_iff. exact Hc. }
  intros Hin Hle. unfold py_max. destruct l as [|m l]; [inversion Hin|].
  f_equal. apply Hstep; [exact Hle|].
  apply elem_of_cons in Hin as [->|Hin]; auto.
Qed.

Lemma elem_of_dict_keys {V} (d : gmap string V) (k : string) :
  k ∈ dict_keys d <-> is_Some (d !! k).
Proof.
  unfold dict_keys. rewrite list_elem_of_fmap. split.
  - intros [[k' v] [-> Hin]]. apply elem_of_map_to_list in Hin. eauto.
  - intros [v Hv]. exists (k, v). split; [reflexivity|].
    apply elem_of_map_to_list. exact Hv.
Qed.

(** ** Saving, then loading *)

Section Roundtrip.

Variables (m : ndarray) (n : nat) (pc : option float64).
Hypothesis Hsquare : square n m.
Hypothesis Hn : 1 <= n <= 9.

Abbreviation saved := (saved_record m n pc).

Lemma cells_mono (p : nat * nat) : p ∈ cells n -> p ∈ cells 9.
Proof. rewrite !elem_of_cells. lia. Qed.

Lemma saved_PC : saved !! "PC" = Some (json_of_correction pc).
Proof.
unfold saved_record. rewrite record_of_lookup_notin.
- apply lookup_singleton_eq.
- intros p _. apply cell_key_not_PC.
Qed.

Lemma saved_cell (p : nat * nat) :
p ∈ cells n ->
exists x, cell m (fst p) (snd p) = Some x
          /\ delete "PC" saved !! cell_key (fst p) (snd p)
             = Some (JVNum x).
Proof.
intros Hp.
destruct (proj2 (square_cell n m (fst p) (snd p) Hsquare)) as [x Hx].
{ apply elem_of_cells. exact Hp. }
exists x. split; [exact Hx|].
rewrite lookup_delete_ne by (symmetry; apply cell_key_not_PC).
unfold saved_record. rewrite record_of_lookup_in, Hx; [reflexivity|exact Hp|].
intros q Hq. apply cell_key_inj; apply cells_mono; assumption.
Qed.

Lemma saved_keys (k : string) :
k ∈ dict_keys (delete "PC" saved) ->
exists p, p ∈ cells n /\ k = cell_key (fst p) (snd p).
Proof.
intros Hk. apply elem_of_dict_keys in Hk as [v Hv].
assert (Hne : k <> "PC").
{ intros ->. rewrite lookup_delete_eq in Hv. discriminate. }
rewrite lookup_delete_ne in Hv by congruence.
destruct (decide (k ∈ (fun p => cell_key (fst p) (snd p)) <$> cells n))
  as [Hin|Hnot].
- apply list_elem_of_fmap in Hin as [p [-> Hp]]. eauto.
- exfalso. unfold saved_record in Hv.
  rewrite record_of_lookup_notin in Hv.
  + rewrite lookup_singleton_ne in Hv by congruence. discriminate.
  + intros p Hp <-. apply Hnot, list_elem_of_fmap. eauto.
Qed.

Lemma saved_dimension : inferred_dimension saved = Ok n.
Proof.
unfold inferred_dimension.
rewrite (py_max_top _ (cell_key (n - 1) (n - 1))).
- apply last_key_dimension. exact Hn.
- apply elem_of_dict_keys.
  destruct (saved_cell (n - 1, n - 1)) as [x [_ Hx]].
  + apply elem_of_cells. cbn. lia.
  + cbn [fst snd] in Hx. rewrite Hx. eauto.
- intros k Hk. destruct (saved_keys k Hk) as [p [Hp ->]].
  apply cell_key_le_last; [lia|exact Hp].
Qed.

(** Filling a fresh identity from the saved record rebuilds the
  matrix. *)
Lemma fill_saved : fill (delete "PC" saved) (cells n) (np_eye n) = m.
Proof.
assert (Hfill := square_fill n (delete "PC" saved) (cells n) (np_eye n)
                   (square_eye n)).
apply ndarray_ext.
- rewrite (proj1 Hfill), (proj1 Hsquare). reflexivity.
- rewrite (proj2 Hfill), (proj2 Hsquare). reflexivity.
- intros i j. destruct (decide (i < n /\ j < n)) as [Hij|Hij].
  + destruct (saved_cell (i, j)) as [x [Hx Hkey]].
    { apply elem_of_cells. exact Hij. }
    cbn [fst snd] in Hx, Hkey. rewrite Hx.
    rewrite (cell_fill_in _ _ _ _ _ (JVNum x)); [reflexivity| |exact Hkey|].
    * apply elem_of_cells. exact Hij.
    * apply (square_cell n); [apply square_eye|exact Hij].
  + destruct (cell (fill _ _ _) i j) eqn:H1.
    { exfalso. apply Hij, (square_cell n _ i j Hfill). eauto. }
    destruct (cell m i j) eqn:H2; [|reflexivity].
    exfalso. apply Hij, (square_cell n _ i j Hsquare). eauto.
Qed.

End Roundtrip.




(** * Further properties *)

(** ** The availability checker, continued *)

Section Availability_more.

Variable base : UTCDateTime -> UTCDateTime -> Stream -> bool.

Lemma forallb_id_map {A} (f : A -> bool) (l : list A) :
  forallb id (map f l) = forallb f l.
Proof.
  induction l as [|x l IH]; cbn; [reflexivity|]. rewrite IH. reflexivity.
Qed.

(** The answer and the list of consulted channels, in closed form. *)
Lemma can_produce_data_closed (a : AdjustedAlgorithm)
    (starttime endtime : UTCDateTime) (stream : Stream) :
  let inputs := get_input_channels a in
  let covered chan := base starttime endtime (select chan stream) in
  can_produce_data base a starttime endtime stream
  = (tier1 covered inputs || tier2 covered inputs || tier3 covered inputs,
     ((if contains "F" inputs then ["F"] else [])
      ++ (if tier1 covered inputs then []
          else (if contains "H" inputs && contains "E" inputs
                   && contains "Z" inputs
                then ["H"; "E"; "Z"] else [])
               ++ (if tier2 covered inputs then [] else inputs)))%list).
Proof.
  intros inputs covered.
  unfold can_produce_data, tier1, tier2, tier3.
  change (get_input_channels a) with inputs.
  change (fun chan => base starttime endtime (select chan stream))
    with covered.
  rewrite (forallb_id_map covered inputs). cbn [map forallb id].
  generalize (forallb covered inputs). subst covered. cbn beta.
  generalize (base starttime endtime (select "F" stream))
    (base starttime endtime (select "H" stream))
    (base starttime endtime (select "E" stream))
    (base starttime endtime (select "Z" stream))
    (contains "F" inputs) (contains "H" inputs)
    (contains "E" inputs) (contains "Z" inputs).
  intros [] [] [] [] [] [] [] [] []; cbn; rewrite ?app_nil_r; reflexivity.
Qed.

(** X1: when "F" is a configured input, the generic tier never decides:
    data can be produced exactly when F is covered, or "H", "E" and "Z"
    are all configured and covered. *)
Theorem can_produce_data_with_F (a : AdjustedAlgorithm)
    (starttime endtime : UTCDateTime) (stream : Stream) :
  let inputs := get_input_channels a in
  let covered chan := base starttime endtime (select chan stream) in
  "F" ∈ inputs ->
  fst (can_produce_data base a starttime endtime stream)
  = covered "F" || tier2 covered inputs.
Proof.
  intros inputs covered HF.
  rewrite can_produce_data_closed. cbn [fst].
  fold inputs. fold covered.
  assert (Hc : contains "F" inputs = true) by (apply contains_true, HF).
  unfold tier1. rewrite Hc. cbn [andb].
  destruct (covered "F") eqn:HcF; [reflexivity|]. cbn [orb].
  destruct (tier2 covered inputs); [reflexivity|]. cbn [orb].
  unfold tier3. apply not_true_is_false. intros Hall.
  rewrite forallb_forall in Hall.
  rewrite (Hall "F") in HcF; [discriminate|].
  apply list_elem_of_In, HF.
Qed.

(** X3: the sufficiency check is only ever asked about configured input
    channels. *)
Theorem can_produce_data_asks_inputs_only (a : AdjustedAlgorithm)
    (starttime endtime : UTCDateTime) (stream : Stream) (chan : string) :
  chan ∈ snd (can_produce_data base a starttime endtime stream) ->
  chan ∈ get_input_channels a.
Proof.
  rewrite can_produce_data_closed. cbn [snd].
  set (inputs := get_input_channels a).
  set (covered := fun c => base starttime endtime (select c stream)).
  generalize (tier1 covered inputs) (tier2 covered inputs).
  intros t1 t2.
  destruct (contains "F" inputs) eqn:HF,
    (contains "H" inputs) eqn:HH, (contains "E" inputs) eqn:HE,
    (contains "Z" inputs) eqn:HZ;
    try apply contains_true in HF; try apply contains_true in HH;
    try apply contains_true in HE; try apply contains_true in HZ;
    cbn [andb]; destruct t1, t2;
    cbn [app]; rewrite ?app_nil_r; intros Hin;
    repeat (apply elem_of_cons in Hin as [->|Hin]; [assumption|]);
    try (apply elem_of_nil in Hin; contradiction); try assumption.
Qed.

End Availability_more.

(** X2: better coverage never turns a positive answer into a negative
    one: if every channel selection the first check accepts is accepted
    by the second, a true answer under the first is a true answer under
    the second. *)
Theorem can_produce_data_monotone
    (base base' : UTCDateTime -> UTCDateTime -> Stream -> bool)
    (a : AdjustedAlgorithm) (starttime endtime : UTCDateTime)
    (stream : Stream) :
  (forall chan, base starttime endtime (select chan stream) = true ->
                base' starttime endtime (select chan stream) = true) ->
  fst (can_produce_data base a starttime endtime stream) = true ->
  fst (can_produce_data base' a starttime endtime stream) = true.
Proof.
  intros Hle. rewrite !can_produce_data_closed. cbn [fst].
  set (inputs := get_input_channels a).
  set (covered := fun chan => base starttime endtime (select chan stream)).
  set (covered' := fun chan => base' starttime endtime (select chan stream)).
  change (forall chan, covered chan = true -> covered' chan = true) in Hle.
  assert (H3 : tier3 covered inputs = true -> tier3 covered' inputs = true).
  { unfold tier3. rewrite !forallb_forall. intros H c Hc. auto. }
  assert (H1 : tier1 covered inputs = true -> tier1 covered' inputs = true).
  { unfold tier1. rewrite !andb_true_iff. intros [? ?]. auto. }
  assert (H2 : tier2 covered inputs = true -> tier2 covered' inputs = true).
  { unfold tier2. rewrite !andb_true_iff. intuition auto. }
  destruct (tier1 covered inputs), (tier2 covered inputs),
    (tier3 covered inputs); cbn; intros Hr; try discriminate;
    rewrite ?H1, ?H2, ?H3 by reflexivity; cbn; rewrite ?orb_true_r;
    reflexivity.
Qed.

(** ** The transform engine, continued *)

Lemma rmap_ok_inv {A B} (f : A -> result B) (l : list A) (l' : list B) :
  rmap f l = Ok l' -> Forall2 (fun x y => f x = Ok y) l l'.
Proof.
  revert l'. induction l as [|x l IH]; cbn; intros l' H.
  - injection H as <-. constructor.
  - destruct (f x) as [y|e] eqn:Hx; [|discriminate]. cbn in H.
    destruct (rmap f l) as [ys|e]; [|discriminate]. cbn in H.
    injection H as <-. constructor; [exact Hx|]. apply IH. reflexivity.
Qed.

Lemma getitem_ok_inv {A} (l : list A) (i : nat) (x : A) :
  getitem l i = Ok x -> l !! i = Some x.
Proof. unfold getitem. destruct (l !! i); congruence. Qed.

Lemma first_trace_getitem (c : string) (stream : Stream) (tr : Trace) :
  getitem (select c stream) 0 = Ok tr -> first_trace c stream = Some tr.
Proof.
  intros H. apply getitem_ok_inv in H. unfold first_trace.
  destruct (select c stream); [discriminate|]. exact H.
Qed.

Lemma np_vstack_ok_inv (l : list (list float64)) (b : ndarray) :
  np_vstack l = Ok b ->
  rows b = l /\ l <> [] /\ Forall (fun r => length r = ncols b) l.
Proof.
  unfold np_vstack. destruct l as [|r l]; [discriminate|].
  destruct (forallb _ (r :: l)) eqn:Hall; [|discriminate].
  intros [= <-]. cbn [rows ncols]. split; [reflexivity|].
  split; [discriminate|].
  apply Forall_forall. intros r' Hr'.
  rewrite forallb_forall in Hall.
  apply Nat.eqb_eq, Hall, list_elem_of_In, Hr'.
Qed.

Lemma np_matmul_ok_inv (a b c : ndarray) :
  np_matmul a b = Ok c ->
  ncols a = length (rows b)
  /\ c = {| ncols := ncols b;
            rows := map (fun r => map (fun t => dot r (column b t))
                                      (range (ncols b)))
                        (rows a) |}.
Proof.
  unfold np_matmul. destruct (Nat.eqb_spec (ncols a) (length (rows b)));
    [|discriminate].
  intros [= <-]. auto.
Qed.

(** What a successful [process] went through. *)
Lemma process_inv (a : AdjustedAlgorithm) (stream : Stream) (out : Stream) :
  process a stream = Ok out ->
  exists inputs first raws adjusted outs,
    Forall2 (fun c d => exists tr, first_trace c stream = Some tr
                                   /\ d = data tr)
            (non_F (get_input_channels a)) inputs
    /\ stream !! 0 = Some first
    /\ np_vstack (inputs ++ [np_ones_like (data first)]) = Ok raws
    /\ np_matmul (matrix a) raws = Ok adjusted
    /\ Forall2 (fun i o =>
                  exists oc ic tr row,
                    get_output_channels a !! i = Some oc
                    /\ get_input_channels a !! i = Some ic
                    /\ first_trace ic stream = Some tr
                    /\ rows adjusted !! i = Some row
                    /\ o = create_trace a oc (stats tr) row)
               (range (length (rows adjusted) - 1)) outs
    /\ (if contains "F" (get_input_channels a)
           && contains "F" (get_output_channels a)
        then exists f d,
               first_trace "F" stream = Some f
               /\ ndarray_add_scalar (data f) (pier_correction a) = Ok d
               /\ out = (outs ++ [create_trace a "F" (stats f) d])%list
        else out = outs).
Proof.
  unfold process. fold (non_F (get_input_channels a)).
  destruct (rmap _ (non_F _)) as [inputs|e] eqn:H1; [|discriminate].
  cbn [rbind].
  destruct (getitem stream 0) as [first|e] eqn:H2; [|discriminate].
  cbn [rbind].
  destruct (np_vstack _) as [raws|e] eqn:H3; [|discriminate].
  cbn [rbind].
  destruct (np_matmul _ _) as [adjusted|e] eqn:H4; [|discriminate].
  cbn [rbind].
  destruct (rmap _ (range _)) as [outs|e] eqn:H5; [|discriminate].
  cbn [rbind]. intros Hout.
  exists inputs, first, raws, adjusted, outs.
  split; [|split; [|split; [|split; [|split]]]].
  - apply rmap_ok_inv in H1. eapply Forall2_impl; [exact H1|].
    intros c d Hc. cbn beta in Hc.
    destruct (getitem (select c stream) 0) as [tr|] eqn:Hg; [|discriminate].
    cbn in Hc. injection Hc as <-. exists tr. split; [|reflexivity].
    apply first_trace_getitem, Hg.
  - apply getitem_ok_inv, H2.
  - exact H3.
  - exact H4.
  - apply rmap_ok_inv in H5. eapply Forall2_impl; [exact H5|].
    intros i o Hi. cbn beta in Hi.
    destruct (getitem (get_output_channels a) i) as [oc|] eqn:G1;
      [|discriminate]. cbn [rbind] in Hi.
    destruct (getitem (get_input_channels a) i) as [ic|] eqn:G2;
      [|discriminate]. cbn [rbind] in Hi.
    destruct (getitem (select ic stream) 0) as [tr|] eqn:G3;
      [|discriminate]. cbn [rbind] in Hi.
    destruct (getitem (rows adjusted) i) as [row|] eqn:G4;
      [|discriminate]. cbn [rbind] in Hi.
    injection Hi as <-. exists oc, ic, tr, row.
    repeat split; auto using getitem_ok_inv, first_trace_getitem.
  - destruct (contains "F" (get_input_channels a)
              && contains "F" (get_output_channels a)).
    + destruct (getitem (select "F" stream) 0) as [f|] eqn:G1;
        [|discriminate]. cbn [rbind] in Hout.
      destruct (ndarray_add_scalar _ _) as [d|] eqn:G2; [|discriminate].
      cbn [rbind] in Hout. injection Hout as <-.
      exists f, d. auto using first_trace_getitem.
    + injection Hout as <-. reflexivity.
Qed.

Lemma create_trace_tags (a : AdjustedAlgorithm) (channel : string)
    (st : Stats) (d : list float64) :
  adjusted_tags a (stats (create_trace a channel st d)).
Proof. unfold adjusted_tags, create_trace. destruct (data_type a); cbn; auto. Qed.

(** X4: every trace [process] returns, the F trace included, carries the
    data-type and location tags of [create_trace]. *)
Theorem process_outputs_tagged (a : AdjustedAlgorithm)
    (stream out : Stream) :
  process a stream = Ok out ->
  Forall (fun o => adjusted_tags a (stats o)) out.
Proof.
  intros H. apply process_inv in H
    as [inputs [first [raws [adjusted [outs [_ [_ [_ [_ [Houts HF]]]]]]]]]].
  assert (Htags : Forall (fun o => adjusted_tags a (stats o)) outs).
  { eapply Forall2_Forall_r; [exact Houts|]. apply Forall_true.
    intros i o [oc [ic [tr [row [_ [_ [_ [_ ->]]]]]]]].
    apply create_trace_tags. }
  destruct (contains "F" (get_input_channels a)
            && contains "F" (get_output_channels a)).
  - destruct HF as [f [d [_ [_ ->]]]]. apply Forall_app. split; [exact Htags|].
    constructor; [apply create_trace_tags|constructor].
  - subst out. exact Htags.
Qed.

Lemma process_outputs_tagged_witness :
  exists out,
    process
      {| inchannels := ["H"; "E"; "Z"; "F"];
         outchannels := ["X"; "Y"; "Z"; "F"];
         matrix := np_eye 4; pier_correction := Some F64.zero;
         statefile := None; data_type := Some "variation";
         location := Some "R1" |}
      [sample_trace "H" 20000; sample_trace "E" (-30);
       sample_trace "Z" 45000; sample_trace "F" 50000] = Ok out
    /\ Forall (fun o => stats_data_type (stats o) = Some "variation"
                        /\ stats_location (stats o) = Some "R1") out.
Proof.
  eexists. split; [vm_compute; reflexivity|].
  refine (process_outputs_tagged
            {| inchannels := ["H"; "E"; "Z"; "F"];
               outchannels := ["X"; "Y"; "Z"; "F"];
               matrix := np_eye 4; pier_correction := Some F64.zero;
               statefile := None; data_type := Some "variation";
               location := Some "R1" |}
            [sample_trace "H" 20000; sample_trace "E" (-30);
             sample_trace "Z" 45000; sample_trace "F" 50000] _ _).
  vm_compute. reflexivity.
Defined.

Lemma lookup_range (n i : nat) (j : nat) :
  range n !! i = Some j -> j = i /\ i < n.
Proof. unfold range. intros H. apply lookup_seq in H. lia. Qed.

(** X5: a successful [process] returns one trace per matrix row but the
    last, plus one when "F" is an input and an output; trace [i] is named
    after output channel [i] and has as many samples as the first trace
    of the batch. *)
Theorem process_output_shape (a : AdjustedAlgorithm)
    (stream out : Stream) :
  process a stream = Ok out ->
  exists first,
    stream !! 0 = Some first
    /\ length out
       = length (rows (matrix a)) - 1
         + (if contains "F" (get_input_channels a)
               && contains "F" (get_output_channels a) then 1 else 0)
    /\ forall i o,
         i < length (rows (matrix a)) - 1 -> out !! i = Some o ->
         get_output_channels a !! i = Some (stats_channel (stats o))
         /\ length (data o) = length (data first).
Proof.
  intros H. apply process_inv in H
    as [inputs [first [raws [adjusted [outs
         [_ [Hfirst [Hstack [Hmul [Houts HF]]]]]]]]]].
  apply np_vstack_ok_inv in Hstack as [Hrows [_ Hlens]].
  apply np_matmul_ok_inv in Hmul as [_ ->]. cbn [rows] in Houts.
  rewrite length_map in Houts.
  assert (Hncols : ncols raws = length (data first)).
  { apply Forall_app in Hlens as [_ Hlast].
    inversion Hlast as [|? ? Hl _]; subst. rewrite <- Hl.
    unfold np_ones_like. apply length_map. }
  assert (Hlen : length outs = length (rows (matrix a)) - 1).
  { rewrite <- (Forall2_length _ _ _ Houts). unfold range.
    apply length_seq. }
  assert (Hi : forall i o,
            outs !! i = Some o ->
            get_output_channels a !! i = Some (stats_channel (stats o))
            /\ length (data o) = length (data first)).
  { intros i o Ho.
    destruct (Forall2_lookup_r _ _ _ _ _ Houts Ho)
      as [i' [Hi' [oc [ic [tr [row [Hoc [_ [_ [Hrow ->]]]]]]]]]].
    apply lookup_range in Hi' as [-> _].
    split; [unfold create_trace; destruct (data_type a); exact Hoc|].
    change (data (create_trace a oc (stats tr) row)) with row.
    change (map ?f ?l) with (f <$> l) in Hrow.
    rewrite list_lookup_fmap in Hrow.
    destruct (rows (matrix a) !! i); [|discriminate].
    cbn in Hrow. injection Hrow as <-.
    rewrite length_map. unfold range. rewrite length_seq. exact Hncols. }
  exists first. split; [exact Hfirst|].
  destruct (contains "F" (get_input_channels a)
            && contains "F" (get_output_channels a)).
  - destruct HF as [f [d [_ [_ ->]]]]. split.
    + rewrite length_app, Hlen. reflexivity.
    + intros i o Hlt Ho. apply Hi.
      rewrite lookup_app_l in Ho by lia. exact Ho.
  - subst out. split; [lia|]. intros i o _ Ho. apply Hi, Ho.
Qed.

Lemma process_output_shape_witness :
  exists first,
    [sample_trace "H" 20000; sample_trace "F" 50000] !! 0 = Some first
    /\ length [create_trace
                 {| inchannels := ["H"; "F"]; outchannels := ["X"; "F"];
                    matrix := np_eye 2; pier_correction := Some F64.zero;
                    statefile := None; data_type := None;
                    location := None |}
                 "X" (stats (sample_trace "H" 20000)) [F64.of_Z 20000];
               create_trace
                 {| inchannels := ["H"; "F"]; outchannels := ["X"; "F"];
                    matrix := np_eye 2; pier_correction := Some F64.zero;
                    statefile := None; data_type := None;
                    location := None |}
                 "F" (stats (sample_trace "F" 50000)) [F64.of_Z 50000]]
       = 2.
Proof.
  destruct (process_output_shape
    {| inchannels := ["H"; "F"]; outchannels := ["X"; "F"];
       matrix := np_eye 2; pier_correction := Some F64.zero;
       statefile := None; data_type := None; location := None |}
    [sample_trace "H" 20000; sample_trace "F" 50000]
    [create_trace
       {| inchannels := ["H"; "F"]; outchannels := ["X"; "F"];
          matrix := np_eye 2; pier_correction := Some F64.zero;
          statefile := None; data_type := None; location := None |}
       "X" (stats (sample_trace "H" 20000)) [F64.of_Z 20000];
     create_trace
       {| inchannels := ["H"; "F"]; outchannels := ["X"; "F"];
          matrix := np_eye 2; pier_correction := Some F64.zero;
          statefile := None; data_type := None; location := None |}
       "F" (stats (sample_trace "F" 50000)) [F64.of_Z 50000]])
    as [first [Hfirst [Hlen _]]].
  - vm_compute. reflexivity.
  - exists first. split; [exact Hfirst|exact Hlen].
Defined.


(** X7: the F output does not go through the matrix.  When "F" is an
    input and an output and the correction is a number [c], the last
    trace of a successful [process] is the first F trace of the batch
    with [c] added to every sample, whatever the matrix is. *)
Theorem process_F_output (a : AdjustedAlgorithm) (stream out : Stream)
    (c : float64) :
  process a stream = Ok out ->
  "F" ∈ get_input_channels a ->
  "F" ∈ get_output_channels a ->
  pier_correction a = Some c ->
  exists f,
    first_trace "F" stream = Some f
    /\ last out
       = Some (create_trace a "F" (stats f)
                 (map (fun x => F64.add x c) (data f))).
Proof.
  intros H Hin Hout Hpc. apply process_inv in H
    as [inputs [first [raws [adjusted [outs [_ [_ [_ [_ [_ HF]]]]]]]]]].
  apply contains_true in Hin, Hout. rewrite Hin, Hout in HF.
  destruct HF as [f [d [Hf [Hd ->]]]].
  rewrite Hpc in Hd. cbn in Hd. injection Hd as <-.
  exists f. split; [exact Hf|]. apply last_snoc.
Qed.

Lemma process_F_output_witness :
  exists f,
    first_trace "F" [sample_trace "H" 20000; sample_trace "F" 50000]
    = Some f
    /\ last [create_trace
               {| inchannels := ["H"; "F"]; outchannels := ["X"; "F"];
                  matrix := np_eye 2;
                  pier_correction := Some (F64.of_Z 5);
                  statefile := None; data_type := None;
                  location := None |}
               "X" (stats (sample_trace "H" 20000)) [F64.of_Z 20000];
             create_trace
               {| inchannels := ["H"; "F"]; outchannels := ["X"; "F"];
                  matrix := np_eye 2;
                  pier_correction := Some (F64.of_Z 5);
                  statefile := None; data_type := None;
                  location := None |}
               "F" (stats (sample_trace "F" 50000)) [F64.of_Z 50005]]
       = Some (create_trace
                 {| inchannels := ["H"; "F"]; outchannels := ["X"; "F"];
                    matrix := np_eye 2;
                    pier_correction := Some (F64.of_Z 5);
                    statefile := None; data_type := None;
                    location := None |}
                 "F" (stats f)
                 (map (fun x => F64.add x (F64.of_Z 5)) (data f))).
Proof.
  set (a := {| inchannels := ["H"; "F"]; outchannels := ["X"; "F"];
               matrix := np_eye 2; pier_correction := Some (F64.of_Z 5);
               statefile := None; data_type := None; location := None |}).
  refine (process_F_output a
    [sample_trace "H" 20000; sample_trace "F" 50000]
    [create_trace a "X" (stats (sample_trace "H" 20000)) [F64.of_Z 20000];
     create_trace a "F" (stats (sample_trace "F" 50000)) [F64.of_Z 50005]]
    (F64.of_Z 5) _ _ _ _).
  - vm_compute. reflexivity.
  - cbn. set_solver.
  - cbn. set_solver.
  - reflexivity.
Defined.

(** X8: on an empty batch [process] raises an [IndexError], whatever the
    configuration and the calibration. *)
Theorem process_empty_batch (a : AdjustedAlgorithm) :
  process a [] = Raise IndexError.
Proof.
  unfold process. fold (non_F (get_input_channels a)).
  destruct (non_F (get_input_channels a)) as [|c cs]; reflexivity.
Qed.

(** On a batch that holds every input other than F, reading the inputs
    succeeds. *)
Lemma read_inputs_ok (a : AdjustedAlgorithm) (stream : Stream) :
  (forall c, c ∈ non_F (get_input_channels a) ->
             is_Some (first_trace c stream)) ->
  exists trs,
    Forall2 (fun c tr => first_trace c stream = Some tr)
            (non_F (get_input_channels a)) trs
    /\ rmap (fun channel =>
               let? tr := getitem (select channel stream) 0 in
               Ok (data tr))%result
            (non_F (get_input_channels a))
       = Ok (map data trs).
Proof.
  intros Hall. destruct (first_traces stream _ Hall) as [trs Htrs].
  exists trs. split; [exact Htrs|].
  apply rmap_ok_Forall2, Forall2_fmap_r.
  eapply Forall2_impl; [exact Htrs|]. intros c tr Htr. cbn beta.
  rewrite (first_trace_Some _ _ _ Htr). reflexivity.
Qed.

(** A matrix whose column count is not the number of stacked rows makes
    [process] raise a [ValueError]. *)
Lemma process_mismatch (a : AdjustedAlgorithm) (stream : Stream)
    (T : nat) :
  stream <> [] ->
  (forall c, c ∈ non_F (get_input_channels a) ->
             is_Some (first_trace c stream)) ->
  Forall (fun tr => length (data tr) = T) stream ->
  ncols (matrix a) <> length (non_F (get_input_channels a)) + 1 ->
  process a stream = Raise ValueError.
Proof.
  intros Hne Hall Hlen Hcols.
  destruct (read_inputs_ok a stream Hall) as [trs [Htrs Hread]].
  unfold process. fold (non_F (get_input_channels a)).
  rewrite Hread. cbn [rbind].
  destruct stream as [|first rest]; [congruence|]. cbn [getitem lookup].
  change (getitem (first :: rest) 0) with (@Ok Trace first). cbn [rbind].
  rewrite (np_vstack_ok _ T).
  - cbn [rbind]. unfold np_matmul. cbn [rows ncols].
    rewrite length_app, length_map, <- (Forall2_length _ _ _ Htrs).
    cbn [length].
    destruct (Nat.eqb_spec (ncols (matrix a))
                (length (non_F (get_input_channels a)) + 1));
      [contradiction|reflexivity].
  - destruct (map data trs); discriminate.
  - apply Forall_app. split.
    + apply Forall_map. eapply Forall2_Forall_r; [exact Htrs|].
      apply Forall_true. intros c tr Htr. cbn beta.
      apply first_trace_elem in Htr.
      exact (proj1 (Forall_forall _ _) Hlen tr Htr).
    + constructor; [|constructor]. unfold np_ones_like.
      rewrite length_map. inversion Hlen; assumption.
Qed.

(** X9: on a batch that holds every input other than F with samples of
    one length, [process] raises a [ValueError] whenever the matrix does
    not have exactly one column per such input plus one. *)
Theorem process_shape_mismatch_raises (a : AdjustedAlgorithm)
    (stream : Stream) (T : nat) :
  stream <> [] ->
  (forall c, c ∈ non_F (get_input_channels a) ->
             is_Some (first_trace c stream)) ->
  Forall (fun tr => length (data tr) = T) stream ->
  ncols (matrix a) <> length (non_F (get_input_channels a)) + 1 ->
  process a stream = Raise ValueError.
Proof. exact (process_mismatch a stream T). Qed.

Lemma process_shape_mismatch_raises_witness :
  process
    {| inchannels := ["H"; "E"; "Z"; "F"];
       outchannels := ["X"; "Y"; "Z"; "F"];
       matrix := np_eye 3; pier_correction := Some F64.zero;
       statefile := None; data_type := None; location := None |}
    [sample_trace "H" 20000; sample_trace "E" (-30);
     sample_trace "Z" 45000; sample_trace "F" 50000]
  = Raise ValueError.
Proof.
  apply (process_shape_mismatch_raises _ _ 1).
  - discriminate.
  - intros c Hc. cbn in Hc. set_unfold in Hc.
    destruct Hc as [->|[->|[->|[]]]]; eexists; reflexivity.
  - repeat constructor.
  - cbn. lia.
Defined.

Lemma non_F_without_F (channels : list string) :
  "F" ∉ channels -> non_F channels = channels.
Proof.
  induction channels as [|c l IH]; intros Hnot; [reflexivity|].
  cbn. destruct (String.eqb_spec c "F") as [->|_].
  - exfalso. apply Hnot. left.
  - cbn. f_equal. apply IH. intros Hin. apply Hnot. right. exact Hin.
Qed.

(** X10: a transformer configured without "F" among its inputs and left
    at the default calibration cannot process any batch: the identity is
    sized to the inputs, the stacked inputs have one row more, and
    [process] raises a [ValueError] on every batch that holds the inputs
    with samples of one length. *)
Theorem process_default_without_F_raises (a : AdjustedAlgorithm)
    (stream : Stream) (T : nat) :
  "F" ∉ get_input_channels a ->
  matrix a = np_eye (length (get_input_channels a)) ->
  stream <> [] ->
  (forall c, c ∈ get_input_channels a -> is_Some (first_trace c stream)) ->
  Forall (fun tr => length (data tr) = T) stream ->
  process a stream = Raise ValueError.
Proof.
  intros HF Hmat Hne Hall Hlen.
  apply (process_mismatch a stream T); try assumption.
  - rewrite non_F_without_F by exact HF. exact Hall.
  - rewrite non_F_without_F, Hmat by exact HF. cbn [ncols np_eye]. lia.
Qed.

Lemma process_default_without_F_raises_witness :
  process
    {| inchannels := ["H"; "E"; "Z"]; outchannels := ["X"; "Y"; "Z"];
       matrix := np_eye 3; pier_correction := Some F64.zero;
       statefile := None; data_type := None; location := None |}
    [sample_trace "H" 20000; sample_trace "E" (-30);
     sample_trace "Z" 45000]
  = Raise ValueError.
Proof.
  apply (process_default_without_F_raises _ _ 1).
  - cbn. intros H. set_unfold in H. intuition discriminate.
  - reflexivity.
  - discriminate.
  - intros c Hc. cbn in Hc. set_unfold in Hc.
    destruct Hc as [->|[->|[->|[]]]]; eexists; reflexivity.
  - repeat constructor.
Defined.

(** X11: [process] does not pad or cut samples: when the batch holds
    every input other than F and one of them has another number of
    samples than the first trace of the batch, it raises a
    [ValueError]. *)
Theorem process_unequal_lengths_raises (a : AdjustedAlgorithm)
    (stream : Stream) (first tr : Trace) (c : string) :
  stream !! 0 = Some first ->
  (forall c, c ∈ non_F (get_input_channels a) ->
             is_Some (first_trace c stream)) ->
  c ∈ non_F (get_input_channels a) ->
  first_trace c stream = Some tr ->
  length (data tr) <> length (data first) ->
  process a stream = Raise ValueError.
Proof.
  intros Hfirst Hall Hc Htr Hlen.
  destruct (read_inputs_ok a stream Hall) as [trs [Htrs Hread]].
  unfold process. fold (non_F (get_input_channels a)).
  rewrite Hread. cbn [rbind].
  unfold getitem at 1. rewrite Hfirst. cbn [rbind].
  destruct (np_vstack _) as [raws|e] eqn:Hstack; cbn [rbind].
  - exfalso. apply np_vstack_ok_inv in Hstack as [_ [_ Hlens]].
    apply Forall_app in Hlens as [Hinputs Hones].
    inversion Hones as [|? ? Hl _]; subst.
    unfold np_ones_like in Hl. rewrite length_map in Hl.
    apply list_elem_of_lookup in Hc as [i Hi].
    destruct (Forall2_lookup_l _ _ _ _ _ Htrs Hi) as [tr' [Htr' Hctr]].
    assert (tr' = tr) as -> by congruence.
    assert (Hin : data tr ∈ map data trs).
    { apply list_elem_of_fmap. exists tr. split; [reflexivity|].
      eapply list_elem_of_lookup_2; eauto. }
    pose proof (proj1 (Forall_forall _ _) Hinputs _ Hin) as Hd.
    cbn beta in Hd. congruence.
  - apply np_vstack_raise_inv in Hstack as ->. reflexivity.
Qed.

Lemma process_unequal_lengths_raises_witness :
  process
    {| inchannels := ["H"; "F"]; outchannels := ["X"; "F"];
       matrix := np_eye 2; pier_correction := Some F64.zero;
       statefile := None; data_type := None; location := None |}
    [sample_trace "F" 50000;
     {| stats := stats (sample_trace "H" 0);
        data := [F64.of_Z 20000; F64.of_Z 20001] |}]
  = Raise ValueError.
Proof.
  refine (process_unequal_lengths_raises _ _ (sample_trace "F" 50000)
            {| stats := stats (sample_trace "H" 0);
               data := [F64.of_Z 20000; F64.of_Z 20001] |} "H" _ _ _ _ _).
  - reflexivity.
  - intros c Hc. cbn in Hc. set_unfold in Hc.
    destruct Hc as [->|[]]. eexists. reflexivity.
  - cbn. set_solver.
  - reflexivity.
  - cbn. lia.
Defined.

(** ** Witnesses of the availability properties *)

Lemma can_produce_data_with_F_witness :
  fst (can_produce_data has_traces
         {| inchannels := ["H"; "E"; "Z"; "F"];
            outchannels := ["X"; "Y"; "Z"; "F"];
            matrix := np_eye 4; pier_correction := Some F64.zero;
            statefile := None; data_type := None; location := None |}
         0%Z 60%Z [sample_trace "F" 50000])
  = true.
Proof.
  rewrite (can_produce_data_with_F has_traces).
  - reflexivity.
  - cbn. set_solver.
Defined.

Lemma can_produce_data_monotone_witness :
  fst (can_produce_data (fun _ _ _ => true)
         {| inchannels := ["H"; "E"; "Z"; "F"];
            outchannels := ["X"; "Y"; "Z"; "F"];
            matrix := np_eye 4; pier_correction := Some F64.zero;
            statefile := None; data_type := None; location := None |}
         0%Z 60%Z [sample_trace "F" 50000])
  = true.
Proof.
  apply (can_produce_data_monotone has_traces (fun _ _ _ => true)).
  - reflexivity.
  - reflexivity.
Defined.

Lemma can_produce_data_asks_inputs_only_witness :
  "H" ∈ get_input_channels
          {| inchannels := ["H"; "E"; "Z"; "F"];
             outchannels := ["X"; "Y"; "Z"; "F"];
             matrix := np_eye 4; pier_correction := Some F64.zero;
             statefile := None; data_type := None; location := None |}.
Proof.
  apply (can_produce_data_asks_inputs_only has_traces _ 0%Z 60%Z
           [sample_trace "H" 20000]).
  vm_compute. set_solver.
Defined.

(** ** The state store, continued *)

Lemma for__invariant {S A} (I : S -> Prop) (body : A -> ST S unit)
    (l : list A) :
  (forall x s, I s -> I (snd (body x s))) ->
  forall s, I s -> I (snd (for_ l body s)).
Proof.
  intros Hbody. induction l as [|x l IH]; intros s Hs; [exact Hs|].
  cbn [for_]. unfold bind. specialize (Hbody x s Hs).
  destruct (body x s) as [[[]|e] s']; cbn [snd] in *; auto.
Qed.

Lemma framed_refl (h : heap) : framed h h.
Proof. unfold framed, same_config. auto 10. Qed.

Lemma load_cell_framed (d : gmap string jvalue) (p : nat * nat)
    (h0 h : heap) :
  framed h0 h -> framed h0 (snd (load_cell d p h)).
Proof.
  intros Hf. unfold load_cell, bind, lift, dict_getitem.
  destruct (d !! cell_key (fst p) (snd p)); [|exact Hf].
  unfold matrix_setitem, bind, get_self, lift, set_matrix, modify.
  destruct (ndarray_setitem _ _ _ _); exact Hf.
Qed.

(** X12: [load_state] only ever assigns the matrix and the correction:
    it leaves every file as it is, keeps the channel lists, the state
    file path and the tag overrides of the instance, and writes at most
    one line to [sys.stderr]. *)
Theorem load_state_frame (h : heap) :
  let h' := snd (load_state h) in
  fs h' = fs h
  /\ same_config (self h') (self h)
  /\ exists l, stderr h' = (stderr h ++ l)%list /\ length l <= 1.
Proof.
  assert (Hframed : forall h', framed h h' ->
            fs h' = fs h /\ same_config (self h') (self h)
            /\ exists l, stderr h' = (stderr h ++ l)%list /\ length l <= 1).
  { intros h' [Hfs [Herr Hcfg]]. split; [exact Hfs|]. split; [exact Hcfg|].
    exists []. rewrite app_nil_r. split; [exact Herr|cbn; lia]. }
  assert (Hlogged : forall a msg,
            same_config a (self h) ->
            let h' := {| self := a; fs := fs h;
                         stderr := (stderr h ++ [msg])%list |} in
            fs h' = fs h /\ same_config (self h') (self h)
            /\ exists l, stderr h' = (stderr h ++ l)%list /\ length l <= 1).
  { intros a msg Hcfg. cbn. split; [reflexivity|]. split; [exact Hcfg|].
    exists [msg]. split; [reflexivity|cbn; lia]. }
  assert (Hreset : framed h {| self := default_state (self h); fs := fs h;
                               stderr := stderr h |}).
  { unfold framed, same_config. cbn. auto 10. }
  cbn zeta.
  destruct (statefile (self h)) as [path|] eqn:Hpath.
  2:{ run_load. rewrite Hpath. apply Hframed, Hreset. }
  destruct (fs h !! path) as [[err|[| |v]]|] eqn:Hfile.
  - run_load. rewrite Hpath. unfold open_read. cbn [fs]. rewrite Hfile.
    cbn [snd]. apply Hlogged. apply Hreset.
  - run_load. rewrite Hpath. unfold open_read. cbn [fs]. rewrite Hfile.
    apply Hframed, Hreset.
  - run_load. rewrite Hpath. unfold open_read. cbn [fs]. rewrite Hfile.
    apply Hframed, Hreset.
  - destruct v as [|b|x|s|l|d].
    1-5: run_load; rewrite Hpath; unfold open_read; cbn [fs];
         rewrite Hfile; cbn [json_loads];
         try destruct s; apply Hframed, Hreset.
    rewrite (load_state_record h path d Hpath Hfile).
    destruct (d !! "PC") as [PC|]; [|apply Hframed, Hreset].
    cbn zeta.
    assert (Hpc : framed h
              {| self := with_pier_correction (Some (np_float64 PC))
                           (default_state (self h));
                 fs := fs h; stderr := stderr h |}).
    { unfold framed, same_config. cbn. auto 10. }
    destruct (inferred_dimension d) as [n|e]; [|apply Hframed, Hpc].
    apply Hframed.
    apply (for__invariant (framed h)).
    + intros p s Hs. apply load_cell_framed, Hs.
    + unfold framed, same_config. cbn. auto 10.
  - run_load. rewrite Hpath. unfold open_read. cbn [fs]. rewrite Hfile.
    cbn [snd]. apply Hlogged. apply Hreset.
Qed.

(** X13: on a record that holds "PC" and every cell key of the inferred
    dimension [n], [load_state] succeeds; the correction is the record's
    "PC" and the matrix is [n] by [n], each cell read from its key,
    whatever the number of input channels; keys beyond the inferred
    dimension are not read. *)
Theorem load_state_complete_record (h : heap) (path : string)
    (d : gmap string jvalue) (PC : jvalue) (n : nat) :
  statefile (self h) = Some path ->
  fs h !! path = Some (Regular (TJson (JObj d))) ->
  d !! "PC" = Some PC ->
  inferred_dimension d = Ok n ->
  (forall i j, i < n -> j < n -> is_Some (d !! cell_key i j)) ->
  exists h',
    load_state h = (Ok tt, h')
    /\ pier_correction (self h') = Some (np_float64 PC)
    /\ square n (matrix (self h'))
    /\ forall i j v, i < n -> j < n -> d !! cell_key i j = Some v ->
                     cell (matrix (self h')) i j = Some (np_float64 v).
Proof.
  intros Hpath Hfile HPC Hdim Hkeys.
  rewrite (load_state_record h path d Hpath Hfile), HPC. cbn zeta.
  rewrite Hdim, load_cells_ok.
  - eexists. split; [reflexivity|]. cbn [self heap_with_matrix with_matrix
      pier_correction matrix with_pier_correction].
    split; [reflexivity|]. split; [apply square_fill, square_eye|].
    intros i j v Hi Hj Hv. apply cell_fill_in.
    + apply elem_of_cells. cbn. lia.
    + rewrite lookup_delete_ne by (symmetry; apply cell_key_not_PC).
      exact Hv.
    + apply (square_cell n); [apply square_eye|lia].
  - intros p Hp. apply elem_of_cells in Hp as [Hi Hj]. split.
    + rewrite lookup_delete_ne by (symmetry; apply cell_key_not_PC).
      apply Hkeys; assumption.
    + apply (square_cell n); [apply square_eye|lia].
Qed.

Lemma load_state_complete_record_witness :
  exists h',
    load_state
      {| self := {| inchannels := ["H"; "E"; "Z"; "F"];
                    outchannels := ["X"; "Y"; "Z"; "F"];
                    matrix := np_eye 4;
                    pier_correction := Some F64.zero;
                    statefile := Some "state.json";
                    data_type := None; location := None |};
         fs := {[ "state.json" :=
                    Regular (TJson (JObj
                      (<[ "PC" := JVNum (F64.of_Z 3) ]>
                         {[ "M11" := JVNum (F64.of_Z 2) ]}))) ]};
         stderr := [] |}
    = (Ok tt, h')
    /\ pier_correction (self h') = Some (F64.of_Z 3)
    /\ matrix (self h') = {| ncols := 1; rows := [[F64.of_Z 2]] |}.
Proof.
  destruct (load_state_complete_record
    {| self := {| inchannels := ["H"; "E"; "Z"; "F"];
                  outchannels := ["X"; "Y"; "Z"; "F"];
                  matrix := np_eye 4;
                  pier_correction := Some F64.zero;
                  statefile := Some "state.json";
                  data_type := None; location := None |};
       fs := {[ "state.json" :=
                  Regular (TJson (JObj
                    (<[ "PC" := JVNum (F64.of_Z 3) ]>
                       {[ "M11" := JVNum (F64.of_Z 2) ]}))) ]};
       stderr := [] |}
    "state.json"
    (<[ "PC" := JVNum (F64.of_Z 3) ]> {[ "M11" := JVNum (F64.of_Z 2) ]})
    (JVNum (F64.of_Z 3)) 1) as [h' [Hload [Hpc _]]].
  - reflexivity.
  - vm_compute. reflexivity.
  - vm_compute. reflexivity.
  - vm_compute. reflexivity.
  - intros i j Hi Hj.
    assert (i = 0) as -> by lia. assert (j = 0) as -> by lia.
    vm_compute. eauto.
  - exists h'. split; [exact Hload|]. split; [exact Hpc|].
    assert (Hh : snd (load_state
      {| self := {| inchannels := ["H"; "E"; "Z"; "F"];
                    outchannels := ["X"; "Y"; "Z"; "F"];
                    matrix := np_eye 4;
                    pier_correction := Some F64.zero;
                    statefile := Some "state.json";
                    data_type := None; location := None |};
         fs := {[ "state.json" :=
                    Regular (TJson (JObj
                      (<[ "PC" := JVNum (F64.of_Z 3) ]>
                         {[ "M11" := JVNum (F64.of_Z 2) ]}))) ]};
         stderr := [] |}) = h') by (rewrite Hload; reflexivity).
    rewrite <- Hh. vm_compute. reflexivity.
Defined.

Lemma dict_keys_empty {V} : dict_keys (∅ : gmap string V) = [].
Proof. unfold dict_keys. rewrite map_to_list_empty. reflexivity. Qed.

(** X14: a record that holds "PC" and no other key has no dimension to
    infer: [load_state] raises a [ValueError] (the [max] of no keys),
    after it has taken the correction from the record; the matrix is
    left at the identity sized to the input channels. *)
Theorem load_state_record_without_cells (h : heap) (path : string)
    (d : gmap string jvalue) (PC : jvalue) :
  statefile (self h) = Some path ->
  fs h !! path = Some (Regular (TJson (JObj d))) ->
  d !! "PC" = Some PC ->
  delete "PC" d = ∅ ->
  load_state h
  = (Raise ValueError,
     {| self := with_pier_correction (Some (np_float64 PC))
                  (default_state (self h));
        fs := fs h; stderr := stderr h |}).
Proof.
  intros Hpath Hfile HPC Hempty.
  rewrite (load_state_record h path d Hpath Hfile), HPC. cbn zeta.
  unfold inferred_dimension. rewrite Hempty, dict_keys_empty. reflexivity.
Qed.

Lemma load_state_record_without_cells_witness :
  fst (load_state
         {| self := {| inchannels := ["H"; "E"; "Z"; "F"];
                       outchannels := ["X"; "Y"; "Z"; "F"];
                       matrix := np_eye 4;
                       pier_correction := Some F64.zero;
                       statefile := Some "state.json";
                       data_type := None; location := None |};
            fs := {[ "state.json" :=
                       Regular (TJson (JObj
                         {[ "PC" := JVNum (F64.of_Z 3) ]})) ]};
            stderr := [] |})
  = Raise ValueError.
Proof.
  rewrite (load_state_record_without_cells _ "state.json"
             {[ "PC" := JVNum (F64.of_Z 3) ]} (JVNum (F64.of_Z 3))).
  - reflexivity.
  - reflexivity.
  - vm_compute. reflexivity.
  - vm_compute. reflexivity.
  - apply delete_singleton_eq.
Defined.

Lemma for__sim {S A} (R : S -> S -> Prop) (body : A -> ST S unit)
    (l : list A) :
  (forall x s s', R s s' ->
     fst (body x s) = fst (body x s')
     /\ R (snd (body x s)) (snd (body x s'))) ->
  forall s s', R s s' ->
    fst (for_ l body s) = fst (for_ l body s')
    /\ R (snd (for_ l body s)) (snd (for_ l body s')).
Proof.
  intros Hbody. induction l as [|x l IH]; intros s s' Hs.
  - split; [reflexivity|exact Hs].
  - cbn [for_]. unfold bind. destruct (Hbody x s s' Hs) as [Hr Hs'].
    destruct (body x s) as [[[]|e] s1], (body x s') as [[[]|e'] s1'];
      cbn [fst snd] in *; try discriminate.
    + apply IH, Hs'.
    + split; [exact Hr|exact Hs'].
Qed.

Lemma load_cell_sim (d : gmap string jvalue) (p : nat * nat)
    (h h' : heap) :
  same_store h h' ->
  fst (load_cell d p h) = fst (load_cell d p h')
  /\ same_store (snd (load_cell d p h)) (snd (load_cell d p h')).
Proof.
  intros [Hself Hfs]. unfold load_cell, bind, lift, dict_getitem.
  destruct (d !! cell_key (fst p) (snd p)); [|split; [reflexivity|split; assumption]].
  unfold matrix_setitem, bind, get_self, lift, set_matrix, modify.
  rewrite <- Hself.
  destruct (ndarray_setitem _ _ _ _); cbn [fst snd];
    (split; [reflexivity|]); split; cbn [self fs]; congruence.
Qed.

(** The outcome of [load_state] and the instance it leaves depend on the
    heap only through the files and the configuration of the instance. *)
Lemma load_state_depends (h h' : heap) :
  fs h = fs h' -> same_config (self h) (self h') ->
  fst (load_state h) = fst (load_state h')
  /\ self (snd (load_state h)) = self (snd (load_state h')).
Proof.
  intros Hfs Hcfg.
  assert (Hdef : default_state (self h) = default_state (self h')).
  { destruct Hcfg as [H1 [H2 [H3 [H4 H5]]]].
    unfold default_state, with_pier_correction, with_matrix,
      Algorithm.get_input_channels. cbn.
    rewrite H1, H2, H3, H4, H5. reflexivity. }
  assert (Hsf : statefile (self h) = statefile (self h'))
    by apply Hcfg.
  destruct (statefile (self h)) as [path|] eqn:Hpath.
  2:{ run_load. rewrite <- Hsf, Hpath. cbn [fst snd self].
      split; [reflexivity|exact Hdef]. }
  symmetry in Hsf.
  assert (Hfile : fs h' !! path = fs h !! path) by (rewrite Hfs; reflexivity).
  destruct (fs h !! path) as [[err|[| |v]]|] eqn:Hf.
  1-3,5: run_load; rewrite Hsf, Hpath; unfold open_read; cbn [fs];
         rewrite Hfile, Hf; cbn [fst snd self];
         (split; [reflexivity|exact Hdef]).
  destruct v as [|b|x|s|l|d].
  1-5: run_load; rewrite Hsf, Hpath; unfold open_read; cbn [fs];
       rewrite Hfile, Hf; cbn [json_loads]; try destruct s;
       cbn [fst snd self]; (split; [reflexivity|exact Hdef]).
  rewrite (load_state_record h path d Hpath Hf),
          (load_state_record h' path d Hsf Hfile).
  destruct (d !! "PC") as [PC|];
    [|cbn [fst snd self]; split; [reflexivity|exact Hdef]].
  cbn zeta. rewrite Hdef.
  destruct (inferred_dimension d) as [n|e];
    [|cbn [fst snd self]; split; reflexivity].
  match goal with
  | |- fst (for_ _ _ ?s) = fst (for_ _ _ ?s') /\ _ =>
      destruct (for__sim same_store (load_cell (delete "PC" d))
                  (cells n) (load_cell_sim (delete "PC" d)) s s')
        as [Hr [Hs _]]
  end.
  - split; [reflexivity|]. cbn [fs heap_with_matrix]. exact Hfs.
  - split; [exact Hr|exact Hs].
Qed.

Lemma load_state_framed (h : heap) :
  fs (snd (load_state h)) = fs h
  /\ same_config (self (snd (load_state h))) (self h).
Proof.
  assert (Hframed : forall h', framed h h' ->
            fs h' = fs h /\ same_config (self h') (self h)).
  { intros h' [Hfs [_ Hcfg]]. auto. }
  assert (Hreset : forall l,
            framed {| self := self h; fs := fs h; stderr := l |}
                   {| self := default_state (self h); fs := fs h;
                      stderr := l |}).
  { intros l. unfold framed, same_config. cbn. auto 10. }
  assert (Hany : forall l,
            let h' := {| self := default_state (self h); fs := fs h;
                         stderr := l |} in
            fs h' = fs h /\ same_config (self h') (self h)).
  { intros l. cbn. unfold same_config. cbn. auto 10. }
  destruct (statefile (self h)) as [path|] eqn:Hpath.
  2:{ run_load. rewrite Hpath. apply Hany. }
  destruct (fs h !! path) as [[err|[| |v]]|] eqn:Hfile.
  1-3,5: run_load; rewrite Hpath; unfold open_read; cbn [fs];
         rewrite Hfile; apply Hany.
  destruct v as [|b|x|s|l|d].
  1-5: run_load; rewrite Hpath; unfold open_read; cbn [fs];
       rewrite Hfile; cbn [json_loads]; try destruct s; apply Hany.
  rewrite (load_state_record h path d Hpath Hfile).
  destruct (d !! "PC") as [PC|]; [|apply Hany].
  cbn zeta.
  assert (Hpc : framed h
            {| self := with_pier_correction (Some (np_float64 PC))
                         (default_state (self h));
               fs := fs h; stderr := stderr h |}).
  { unfold framed, same_config. cbn. auto 10. }
  destruct (inferred_dimension d) as [n|e]; [|apply Hframed, Hpc].
  apply Hframed, (for__invariant (framed h)).
  - intros p s Hs. apply load_cell_framed, Hs.
  - unfold framed, same_config. cbn. auto 10.
Qed.

(** X15: loading again changes nothing: a second [load_state] right
    after a first one has the same outcome (it returns or raises the
    same exception) and leaves the same instance and the same files. *)
Theorem load_state_twice (h : heap) :
  let h1 := snd (load_state h) in
  fst (load_state h1) = fst (load_state h)
  /\ self (snd (load_state h1)) = self h1
  /\ fs (snd (load_state h1)) = fs h.
Proof.
  cbn zeta.
  destruct (load_state_framed h) as [Hfs Hcfg].
  destruct (load_state_depends (snd (load_state h)) h Hfs Hcfg)
    as [Hr Hs].
  split; [exact Hr|]. split; [exact Hs|].
  destruct (load_state_framed (snd (load_state h))) as [Hfs' _].
  congruence.
Qed.

(** [save_state], step by step. *)
Lemma save_state_steps (h : heap) :
  save_state h
  = match statefile (self h) with
    | None => (Ok tt, h)
    | Some path =>
        match ndarray_len_row0 (matrix (self h)) with
        | Raise e => (Raise e, h)
        | Ok n =>
            match for_ (cells n) (save_cell (matrix (self h)))
                       {[ "PC" := json_of_correction
                                    (pier_correction (self h)) ]} with
            | (Raise e, _) => (Raise e, h)
            | (Ok _, d) =>
                match open_write (fs h) path (json_dumps d) with
                | Ok fs' => (Ok tt, {| self := self h; fs := fs';
                                       stderr := stderr h |})
                | Raise e => (Raise e, h)
                end
            end
        end
    end.
Proof.
  unfold save_state, bind, get_self, lift, with_local, write_file.
  destruct (statefile (self h)) as [path|]; [|reflexivity].
  destruct (ndarray_len_row0 (matrix (self h))) as [n|e]; [|reflexivity].
  match goal with
  | |- context [for_ (range n) ?body ?d0] =>
      replace (for_ (range n) body d0)
        with (for_ (cells n) (save_cell (matrix (self h))) d0)
        by (symmetry;
            exact (for__nested (save_cell (matrix (self h))) n d0))
  end.
  destruct (for_ (cells n) _ _) as [[[]|e] d]; reflexivity.
Qed.

(** X16: [save_state] never changes the instance or [sys.stderr], and
    the only file it can change is the state file. *)
Theorem save_state_frame (h : heap) :
  let h' := snd (save_state h) in
  self h' = self h
  /\ stderr h' = stderr h
  /\ forall p, statefile (self h) <> Some p -> fs h' !! p = fs h !! p.
Proof.
  cbn zeta. rewrite save_state_steps.
  destruct (statefile (self h)) as [path|]; [|cbn; auto].
  destruct (ndarray_len_row0 (matrix (self h))) as [n|e]; [|cbn; auto].
  destruct (for_ (cells n) _ _) as [[[]|e] d]; [|cbn; auto].
  unfold open_write.
  destruct (fs h !! path) as [[err|t]|]; cbn [snd self stderr fs]; auto;
    (split; [reflexivity|]); (split; [reflexivity|]);
    intros p Hp; apply lookup_insert_ne; congruence.
Qed.

Lemma save_state_frame_witness :
  fs (snd (save_state
             {| self := {| inchannels := ["H"; "E"; "Z"; "F"];
                           outchannels := ["X"; "Y"; "Z"; "F"];
                           matrix := np_eye 4;
                           pier_correction := Some F64.zero;
                           statefile := Some "state.json";
                           data_type := None; location := None |};
                fs := {[ "other.json" := Regular TEmpty ]};
                stderr := [] |})) !! "other.json"
  = Some (Regular TEmpty).
Proof.
  destruct (save_state_frame
    {| self := {| inchannels := ["H"; "E"; "Z"; "F"];
                  outchannels := ["X"; "Y"; "Z"; "F"];
                  matrix := np_eye 4;
                  pier_correction := Some F64.zero;
                  statefile := Some "state.json";
                  data_type := None; location := None |};
       fs := {[ "other.json" := Regular TEmpty ]};
       stderr := [] |}) as [_ [_ H]].
  rewrite (H "other.json").
  - reflexivity.
  - discriminate.
Defined.

Lemma save_cells_raise (m : ndarray) (ps : list (nat * nat))
    (d : gmap string jvalue) :
  (exists p, p ∈ ps /\ cell m (fst p) (snd p) = None) ->
  fst (for_ ps (save_cell m) d) = Raise IndexError.
Proof.
  revert d. induction ps as [|q ps IH]; intros d [p [Hin Hp]];
    [inversion Hin|].
  cbn [for_]. unfold bind at 1, save_cell at 1, bind, lift, modify.
  rewrite ndarray_getitem_cell.
  destruct (cell m (fst q) (snd q)) as [x|] eqn:Hq; [|reflexivity].
  apply IH. apply elem_of_cons in Hin as [->|Hin]; [congruence|eauto].
Qed.

(** X17: a matrix with fewer rows than columns cannot be saved:
    [save_state] raises an [IndexError] before it opens the state file,
    and nothing is written. *)
Theorem save_state_short_matrix (h : heap) (path : string) :
  statefile (self h) = Some path ->
  length (rows (matrix (self h))) < ncols (matrix (self h)) ->
  save_state h = (Raise IndexError, h).
Proof.
  intros Hpath Hshort. rewrite save_state_steps, Hpath.
  unfold ndarray_len_row0.
  destruct (rows (matrix (self h))) as [|r0 rs] eqn:Hrows; [reflexivity|].
  match goal with
  | |- context [for_ ?l ?body ?d0] =>
      assert (Hloop : fst (for_ l body d0) = Raise IndexError)
  end.
  { apply save_cells_raise.
    exists (length (r0 :: rs), 0). split.
    - apply elem_of_cells. cbn [fst snd]. lia.
    - unfold cell. cbn [fst snd]. rewrite Hrows.
      rewrite (proj2 (lookup_ge_None _ _)); [reflexivity|lia]. }
  destruct (for_ (cells _) _ _) as [[[]|e] d']; cbn [fst] in Hloop;
    [discriminate|].
  injection Hloop as ->. reflexivity.
Qed.

Lemma save_state_short_matrix_witness :
  fst (save_state
         {| self := {| inchannels := ["H"; "E"; "Z"; "F"];
                       outchannels := ["X"; "Y"; "Z"; "F"];
                       matrix := {| ncols := 2;
                                    rows := [[F64.one; F64.zero]] |};
                       pier_correction := Some F64.zero;
                       statefile := Some "state.json";
                       data_type := None; location := None |};
            fs := ∅; stderr := [] |})
  = Raise IndexError.
Proof.
  rewrite (save_state_short_matrix _ "state.json").
  - reflexivity.
  - reflexivity.
  - cbn. lia.
Defined.

(** X18: a correction that is [None] does not survive a round trip: it
    is saved as [null], and [load_state] reads [null] back as NaN.  The
    matrix (square, of dimension 1 to 9) is reproduced. *)
Theorem save_then_load_unset_correction (h : heap) (path : string)
    (n : nat) :
  statefile (self h) = Some path ->
  square n (matrix (self h)) ->
  1 <= n <= 9 ->
  pier_correction (self h) = None ->
  (forall err, fs h !! path <> Some (Denied err)) ->
  exists h1 h2,
    save_state h = (Ok tt, h1)
    /\ load_state h1 = (Ok tt, h2)
    /\ matrix (self h2) = matrix (self h)
    /\ pier_correction (self h2) = Some F64.nan.
Proof.
  intros Hpath Hsq Hn Hpc Hfile.
  eexists _, _. split.
  { apply (save_state_square h path n);
      [assumption|assumption|lia|assumption]. }
  rewrite Hpc.
  set (m := matrix (self h)).
  change (record_of m (cells n) {[ "PC" := json_of_correction None ]})
    with (saved_record m n None).
  set (saved := saved_record m n None).
  assert (HPC : saved !! "PC" = Some (json_of_correction None))
    by apply saved_PC.
  assert (Hdim : inferred_dimension saved = Ok n)
    by (apply saved_dimension; assumption).
  assert (Hfill : fill (delete "PC" saved) (cells n) (np_eye n) = m)
    by (apply (fill_saved m n None); assumption).
  rewrite (load_state_record _ path saved);
    [|exact Hpath|cbn [fs]; apply lookup_insert_eq].
  rewrite HPC. cbn zeta. rewrite Hdim, load_cells_ok.
  - rewrite Hfill. split; [reflexivity|]. split; reflexivity.
  - intros p Hp. split.
    + destruct (saved_cell m n None Hsq Hn p Hp) as [x [_ Hx]].
      fold saved in Hx. rewrite Hx. eauto.
    + apply (square_cell n); [apply square_eye|].
      apply elem_of_cells. exact Hp.
Qed.

Lemma save_then_load_unset_correction_witness :
  exists h1 h2,
    save_state
      {| self := {| inchannels := ["H"; "E"; "Z"; "F"];
                    outchannels := ["X"; "Y"; "Z"; "F"];
                    matrix := np_eye 4; pier_correction := None;
                    statefile := Some "state.json";
                    data_type := None; location := None |};
         fs := ∅; stderr := [] |}
    = (Ok tt, h1)
    /\ load_state h1 = (Ok tt, h2)
    /\ matrix (self h2) = np_eye 4
    /\ pier_correction (self h2) = Some F64.nan.
Proof.
  refine (save_then_load_unset_correction
            {| self := {| inchannels := ["H"; "E"; "Z"; "F"];
                          outchannels := ["X"; "Y"; "Z"; "F"];
                          matrix := np_eye 4; pier_correction := None;
                          statefile := Some "state.json";
                          data_type := None; location := None |};
               fs := ∅; stderr := [] |}
            "state.json" 4 _ _ _ _ _).
  - reflexivity.
  - apply square_eye.
  - lia.
  - reflexivity.
  - intros err. cbn [fs]. rewrite lookup_empty. discriminate.
Defined.

(** X19: a state file whose JSON document is not a record: [null] and
    the empty string leave the default calibration without an error, an
    array raises a [TypeError] and a number, a boolean or a non-empty
    string an [AttributeError] (they have no [pop]); in every case the
    instance is left at the identity sized to the inputs and
    correction 0. *)
Theorem load_state_not_a_record (h : heap) (path : string) (v : json) :
  statefile (self h) = Some path ->
  fs h !! path = Some (Regular (TJson v)) ->
  (forall d, v <> JObj d) ->
  load_state h
  = (match v with
     | JNull | JStr "" => Ok tt
     | JArr _ => Raise TypeError
     | _ => Raise AttributeError
     end,
     {| self := default_state (self h); fs := fs h; stderr := stderr h |}).
Proof.
  intros Hpath Hfile Hv. run_load. rewrite Hpath.
  unfold open_read. cbn [fs]. rewrite Hfile. cbn [json_loads].
  destruct v as [|b|x|s|l|d]; try reflexivity.
  - destruct s; reflexivity.
  - exfalso. exact (Hv d eq_refl).
Qed.

Lemma load_state_not_a_record_witness :
  load_state
    {| self := {| inchannels := ["H"; "E"; "Z"; "F"];
                  outchannels := ["X"; "Y"; "Z"; "F"];
                  matrix := np_eye 2;
                  pier_correction := Some (F64.of_Z 7);
                  statefile := Some "state.json";
                  data_type := None; location := None |};
       fs := {[ "state.json" := Regular (TJson (JArr [])) ]};
       stderr := [] |}
  = (Raise TypeError,
     {| self := {| inchannels := ["H"; "E"; "Z"; "F"];
                   outchannels := ["X"; "Y"; "Z"; "F"];
                   matrix := np_eye 4;
                   pier_correction := Some F64.zero;
                   statefile := Some "state.json";
                   data_type := None; location := None |};
        fs := {[ "state.json" := Regular (TJson (JArr [])) ]};
        stderr := [] |}).
Proof.
  refine (eq_trans (load_state_not_a_record _ "state.json" (JArr []) _ _ _) _).
  - reflexivity.
  - vm_compute. reflexivity.
  - discriminate.
  - reflexivity.
Defined.

(** ** Construction and configuration *)

(** A pier correction passed to the constructor without a matrix is
    discarded: [load_state] runs and overwrites it, so the new instance
    is the one constructed without a correction. *)
Lemma init_without_matrix_ignores_correction
    (c : option float64) (statefile data_type location : option string)
    (inchannels outchannels : option (list string))
    (files : gmap string file) (err : list string) :
  init None c statefile data_type location inchannels outchannels
       files err
  = init None None statefile data_type location inchannels outchannels
         files err.
Proof. reflexivity. Qed.

Section Configure_facts.

Variable Namespace : Type.
Variable adjusted_statefile : Namespace -> option string.
Variable Algorithm_configure :
  Namespace -> AdjustedAlgorithm -> AdjustedAlgorithm.

(** X20: [configure] discards the calibration of the instance, also one
    given to the constructor: with no state file among the arguments it
    leaves the identity sized to the reconfigured input channels and
    correction 0, and touches neither files nor [sys.stderr]. *)
Theorem configure_without_statefile (arguments : Namespace) (h : heap) :
  adjusted_statefile arguments = None ->
  configure Namespace adjusted_statefile Algorithm_configure arguments h
  = (Ok tt,
     {| self := default_state
                  (with_statefile None
                     (Algorithm_configure arguments (self h)));
        fs := fs h; stderr := stderr h |}).
Proof.
  intros Hnone. unfold configure, bind at 1 2, modify.
  rewrite Hnone. run_load. cbn [statefile with_statefile]. reflexivity.
Qed.

End Configure_facts.

Lemma configure_without_statefile_witness :
  configure (option string) id (fun _ a => a) None
    {| self := {| inchannels := ["H"; "E"; "Z"; "F"];
                  outchannels := ["X"; "Y"; "Z"; "F"];
                  matrix := {| ncols := 4; rows := [] |};
                  pier_correction := Some (F64.of_Z 7);
                  statefile := Some "state.json";
                  data_type := None; location := None |};
       fs := ∅; stderr := [] |}
  = (Ok tt,
     {| self := {| inchannels := ["H"; "E"; "Z"; "F"];
                   outchannels := ["X"; "Y"; "Z"; "F"];
                   matrix := np_eye 4;
                   pier_correction := Some F64.zero;
                   statefile := None;
                   data_type := None; location := None |};
        fs := ∅; stderr := [] |}).
Proof.
  refine (eq_trans (configure_without_statefile (option string) id
                      (fun _ a => a) None _ _) _).
  - reflexivity.
  - reflexivity.
Defined.
